(** * simple-queries: the distant-label correction engine and its record store

    A shallow embedding of [src/sec3_data.py] (the [DB] record store,
    [reconstruct_ids], and [DistantCollection.flip_label],
    [correct_query_tweets], [remove_query_tweets]) and of
    [batches_to_sets] from [src/sec3_proc.py].

    Python values are modelled as follows.
    - A [str] is a [string]; a character is a code point below 256.
    - A scalar stored in a record is a [value]: an [int] or a [str].
    - A [dict] is a [gmap]; a missing key raises [KeyError].
    - A raised exception is the [Raise] case of [result]. *)

From Stdlib Require Import ZArith QArith Qround Ascii String List.
From Stdlib Require Import DecimalString DecimalZ.
From stdpp Require Import gmap strings list fin_maps.

Open Scope string_scope.
Open Scope list_scope.
Open Scope stdpp_scope.

(** ** Exceptions *)

Inductive exn : Type :=
| KeyError
| TypeError
| AttributeError
| AssertionError
| JSONDecodeError
| FileNotFoundError
| UnsupportedOperation.

Inductive result (A : Type) : Type :=
| Ok (a : A)
| Raise (e : exn).
Arguments Ok {A} a.
Arguments Raise {A} e.

Global Instance result_ret : MRet result := λ A a, Ok a.

Global Instance result_bind : MBind result := λ A B k m,
  match m with
  | Ok a => k a
  | Raise e => Raise e
  end.

(** ** Scalars *)

Inductive value : Type :=
| VInt (z : Z)
| VStr (s : string).

Global Instance value_eq_dec : EqDecision value.
Proof. solve_decision. Defined.

Definition value_to_sum (v : value) : Z + string :=
  match v with VInt z => inl z | VStr s => inr s end.

Definition value_of_sum (x : Z + string) : value :=
  match x with inl z => VInt z | inr s => VStr s end.

Global Instance value_countable : Countable value :=
  inj_countable' value_to_sum value_of_sum
    (λ v, match v with VInt _ => eq_refl | VStr _ => eq_refl end).

(** Python truth value of a scalar: [0] and [''] are false. *)
Definition truthy (v : value) : bool :=
  match v with
  | VInt z => negb (z =? 0)%Z
  | VStr s => negb (String.eqb s EmptyString)
  end.

(** Truth value of what a function returns; [None] is false. *)
Definition truthy_opt (o : option value) : bool :=
  match o with
  | None => false
  | Some v => truthy v
  end.

(** ** Strings *)

(** [sub in s] on two [str]. *)
Fixpoint py_in (sub s : string) : bool :=
  String.prefix sub s ||
  match s with
  | EmptyString => false
  | String _ s' => py_in sub s'
  end.

(** [any([...])] over an already built list of booleans. *)
Definition any (bs : list bool) : bool := foldr orb false bs.

(** [str.lower] on code points below 256: [A-Z] and the accented
    capitals U+00C0..U+00DE (U+00D7 is the multiplication sign). *)
Definition lower_char (c : ascii) : ascii :=
  let n := N_of_ascii c in
  if ((65 <=? n) && (n <=? 90) ||
      (192 <=? n) && (n <=? 222) && negb (n =? 215))%N
  then ascii_of_N (n + 32)
  else c.

Fixpoint lower (s : string) : string :=
  match s with
  | EmptyString => EmptyString
  | String c s' => String (lower_char c) (lower s')
  end.

(** [d[k]] on a [dict]. *)
Definition getitem `{Countable K} {V : Type} (d : gmap K V) (k : K)
  : result V :=
  match d !! k with
  | Some v => Ok v
  | None => Raise KeyError
  end.

(** [v + s] with [s] a [str]: an [int] on the left is a [TypeError]. *)
Definition str_add (v : value) (s : string) : result string :=
  match v with
  | VStr q => Ok (q +:+ s)
  | VInt _ => Raise TypeError
  end.

(** [s + v] with [s] a [str]. *)
Definition str_radd (s : string) (v : value) : result string :=
  match v with
  | VStr q => Ok (s +:+ q)
  | VInt _ => Raise TypeError
  end.

(** A list comprehension whose element expression may raise: elements are
    evaluated left to right and the first exception ends it. *)
Fixpoint comprehension {A B : Type} (f : A → result B) (l : list A)
  : result (list B) :=
  match l with
  | [] => Ok []
  | a :: l' => b ← f a; bs ← comprehension f l'; Ok (b :: bs)
  end.

(** ** Text files

    The file system maps a path to the text of the file.  A file object
    opened for reading holds what it has not read yet; one opened for
    writing holds what it has written and not flushed yet, which [close]
    appends to the file. *)

Definition LF : ascii := "010"%char.
Definition CR : ascii := "013"%char.
Definition DQ : ascii := "034"%char.
Definition nl : string := String LF EmptyString.

Inductive fmode : Type := Fr | Fa | Fw.

Global Instance fmode_eq_dec : EqDecision fmode.
Proof. solve_decision. Defined.

Record file : Type := mkfile {
  path : string;
  fmode_of : fmode;
  unread : string;
  pending : string
}.

(** Reading in text mode translates ["\r\n"] and ["\r"] to ["\n"]. *)
Fixpoint universal_newlines (s : string) : string :=
  match s with
  | EmptyString => EmptyString
  | String c s' =>
      if Ascii.eqb c CR then
        match s' with
        | String c' s'' =>
            if Ascii.eqb c' LF then String LF (universal_newlines s'')
            else String LF (universal_newlines s')
        | EmptyString => String LF EmptyString
        end
      else String c (universal_newlines s')
  end.

(** [open(path, mode)]: ['r'] raises on a missing file, ['a'] creates it
    and ['w'] empties the file. *)
Definition open (fs : gmap string string) (p : string) (m : fmode)
  : result (gmap string string * file) :=
  match m with
  | Fr =>
      match fs !! p with
      | Some c => Ok (fs, mkfile p Fr (universal_newlines c) EmptyString)
      | None => Raise FileNotFoundError
      end
  | Fa => Ok (match fs !! p with Some _ => fs | None => <[p := EmptyString]> fs end,
              mkfile p Fa EmptyString EmptyString)
  | Fw => Ok (<[p := EmptyString]> fs, mkfile p Fw EmptyString EmptyString)
  end.

(** [f.write(s)] *)
Definition write (f : file) (s : string) : result file :=
  match fmode_of f with
  | Fr => Raise UnsupportedOperation
  | _ => Ok (mkfile (path f) (fmode_of f) (unread f) (pending f +:+ s))
  end.

(** [f.close()] *)
Definition close (fs : gmap string string) (f : file) : gmap string string :=
  match fmode_of f with
  | Fr => fs
  | _ => <[path f := default EmptyString (fs !! path f) +:+ pending f]> fs
  end.

(** [f.read()]: the rest of the file; the position moves to the end. *)
Definition read (f : file) : result (string * file) :=
  match fmode_of f with
  | Fr => Ok (unread f, mkfile (path f) Fr EmptyString EmptyString)
  | _ => Raise UnsupportedOperation
  end.

(** The lines [for line in f] yields from the current position, each with
    its newline; the last one has none when the text does not end in one. *)
Fixpoint readlines (s : string) : list string :=
  match s with
  | EmptyString => []
  | String c s' =>
      if Ascii.eqb c LF then String c EmptyString :: readlines s'
      else match readlines s' with
           | [] => [String c EmptyString]
           | l :: ls => String c l :: ls
           end
  end.

(** ** The JSON library

    [json.dumps] and [json.loads] belong to the Python library, so the
    store is stated over any pair of functions; [JsonLaws] records what
    the library guarantees for a record of scalars: the text of a record
    is one line without line breaks, and parsing gives the record back
    (white space after the value, such as the newline that ends the line,
    is skipped). *)

Class Json : Type := {
  dumps : gmap string value → string;
  loads : string → option (gmap string value)
}.

Definition one_line (s : string) : bool :=
  negb (py_in nl s) && negb (py_in (String CR EmptyString) s).

Class JsonLaws (J : Json) : Prop := {
  loads_dumps : ∀ r, loads (dumps r +:+ nl) = Some r;
  dumps_one_line : ∀ r, one_line (dumps r) = true
}.

(** ** The record store: class [DB] *)

Record DB : Type := mkDB {
  mode : fmode;
  db : file
}.

(** [DB.__init__(db_name, mode)] *)
Definition DB_init (fs : gmap string string) (db_name : string) (m : fmode)
  : result (gmap string string * DB) :=
  let p := "./data/" +:+ db_name +:+ ".db" in
  match open fs p m with
  | Ok (fs', f) => Ok (fs', mkDB m f)
  | Raise FileNotFoundError =>
      '(fs1, fo) ← open fs p Fw;
      let fs2 := close fs1 fo in
      '(fs3, f) ← open fs2 p m;
      Ok (fs3, mkDB m f)
  | Raise e => Raise e
  end.

Section Store.
Context `{J : Json}.

(** [DB.insert(jsonf)] *)
Definition insert (self : DB) (jsonf : gmap string value) : result DB :=
  f ← write (db self) (dumps jsonf +:+ nl);
  Ok (mkDB (mode self) f).

(** [DB.commit()] *)
Definition commit (fs : gmap string string) (self : DB) : gmap string string :=
  close fs (db self).

(** [for jsf in lines: body], with each line parsed when it is reached. *)
Fixpoint for_lines {S : Type} (body : gmap string value → S → result S)
    (lines : list string) (s : S) : result S :=
  match lines with
  | [] => Ok s
  | line :: lines' =>
      match loads line with
      | None => Raise JSONDecodeError
      | Some jsf => s' ← body jsf s; for_lines body lines' s'
      end
  end.

(** [for jsf in self.loop(): body] *)
Definition for_loop {S : Type} (self : DB)
    (body : gmap string value → S → result S) (s : S) : result S :=
  match mode self with
  | Fr => for_lines body (readlines (unread (db self))) s
  | _ => Raise AssertionError
  end.

(** [list(self.loop())]: the records [DB.loop] yields, in order. *)
Definition loop (self : DB) : result (list (gmap string value)) :=
  for_loop self (λ jsf acc, Ok (acc ++ [jsf])) [].

(** ** [reconstruct_ids] *)

(** The body of the loop: the [try] block and its [except KeyError]. *)
Definition reconstruct_line (line : gmap string value)
    (ids : gmap value value * gmap value value)
  : result (gmap value value * gmap value value) :=
  let '(user_ids, query_ids) := ids in
  let except_KeyError (user_ids : gmap value value) :=
    label ← getitem line "label";
    i ← getitem line "id";
    Ok (<[i := label]> user_ids, query_ids) in
  match (label ← getitem line "label";
         uid ← getitem line "user_id";
         Ok (<[uid := label]> user_ids)) with
  | Raise KeyError => except_KeyError user_ids
  | Raise e => Raise e
  | Ok user_ids1 =>
      match (query ← getitem line "query";
             tid ← getitem line "tweet_id";
             Ok (<[tid := query]> query_ids)) with
      | Raise KeyError => except_KeyError user_ids1
      | Raise e => Raise e
      | Ok query_ids1 => Ok (user_ids1, query_ids1)
      end
  end.

Definition reconstruct_ids (fs : gmap string string) (db_id : string)
  : result (gmap string string * (gmap value value * gmap value value)) :=
  '(fs1, uds) ← DB_init fs (db_id +:+ "_fix") Fr;
  '(content, f) ← read (db uds);
  let uds := mkDB (mode uds) f in
  '(fs2, uds) ← (if String.eqb content EmptyString
                 then DB_init fs1 db_id Fr
                 else Ok (fs1, uds));
  ids ← for_loop uds reconstruct_line (∅, ∅);
  Ok (fs2, ids).

(** ** Class [DistantCollection]

    The attributes the methods below read or write. *)

Record DistantCollection : Type := mkDC {
  id_ : string;
  hit_fix : DB;
  msg_fix : DB;
  queries : gmap string value;
  filter_ : list string;
  flip_any : list string;
  flip_prefix : list string;
  user_ids : gmap value value;
  query_ids : gmap value value;
  clean_level : string
}.

Definition query_tails : list string := [" "; "."; "!"; ","; ":"; ";"].

(** ['m' if label == 'f' else 'f'] *)
Definition flipped (label : value) : value :=
  if decide (label = VStr "f") then VStr "m" else VStr "f".

(** [s.lower()]; an [int] has no such method. *)
Definition lower_of (v : value) : result string :=
  match v with
  | VStr s => Ok (lower s)
  | VInt _ => Raise AttributeError
  end.

(** [flip_label(self, uid, tid, text)]; a bare [return] is [None]. *)
Definition flip_label (self : DistantCollection) (uid tid : value)
    (text : string) : result (option value) :=
  if any ((λ it, py_in it text) <$> filter_ self) then Ok None
  else
    label ← getitem (user_ids self) uid;
    query ← getitem (query_ids self) tid;
    tails ← comprehension
              (λ affix, s ← str_add query affix; Ok (py_in s text))
              query_tails;
    if any tails then
      if any ((λ f, py_in f text) <$> flip_any self)
      then Ok (Some (flipped label))
      else
        prefixes ← comprehension
                     (λ p, s ← str_radd p query; Ok (py_in s text))
                     (flip_prefix self);
        if any prefixes then Ok (Some (flipped label)) else Ok (Some label)
    else Ok (Some label).

(** The body of the loop of [correct_query_tweets]; the state is the
    [hit_fix] store. *)
Definition correct_line (self : DistantCollection)
    (line : gmap string value) (hit_fix : DB) : result DB :=
  uid ← getitem line "user_id";
  tid ← getitem line "tweet_id";
  tweet_text ← getitem line "tweet_text";
  text ← lower_of tweet_text;
  new_label ← flip_label self uid tid text;
  match new_label with
  | Some v =>
      if truthy v then insert hit_fix (<["label" := v]> line)
      else Ok hit_fix
  | None => Ok hit_fix
  end.

Definition with_hit_fix (self : DistantCollection) (d : DB)
  : DistantCollection :=
  mkDC (id_ self) d (msg_fix self) (queries self) (filter_ self)
       (flip_any self) (flip_prefix self) (user_ids self) (query_ids self)
       (clean_level self).

Definition with_msg_fix (self : DistantCollection) (d : DB)
  : DistantCollection :=
  mkDC (id_ self) (hit_fix self) d (queries self) (filter_ self)
       (flip_any self) (flip_prefix self) (user_ids self) (query_ids self)
       (clean_level self).

Definition correct_query_tweets (fs : gmap string string)
    (self : DistantCollection)
  : result (gmap string string * DistantCollection) :=
  '(fs1, db) ← DB_init fs (id_ self) Fr;
  hit_fix' ← for_loop db (correct_line self) (hit_fix self);
  Ok (commit fs1 hit_fix', with_hit_fix self hit_fix').

(** The body of the loop of [remove_query_tweets]; the state is the
    [msg_fix] store. *)
Definition remove_line (self : DistantCollection)
    (line : gmap string value) (msg_fix : DB) : result DB :=
  uid ← getitem line "user_id";
  label ← getitem (user_ids self) uid;
  let line := <["distant_label" := label]> line in
  if String.eqb (clean_level self) "messages" then
    hits ← comprehension
              (λ query, tweet_text ← getitem line "tweet_text";
                        text ← lower_of tweet_text;
                        Ok (py_in query text))
              (map_to_list (queries self)).*1;
    if negb (any hits) then insert msg_fix line else Ok msg_fix
  else
    tid ← getitem line "tweet_id";
    if negb (bool_decide (is_Some (query_ids self !! tid)))
    then insert msg_fix line
    else Ok msg_fix.

Definition remove_query_tweets (fs : gmap string string)
    (self : DistantCollection)
  : result (gmap string string * DistantCollection) :=
  '(fs1, db) ← DB_init fs (id_ self +:+ "_msg") Fr;
  msg_fix' ← for_loop db (remove_line self) (msg_fix self);
  Ok (fs1, with_msg_fix self msg_fix').

End Store.

(** ** [batches_to_sets] (src/sec3_proc.py) *)

(** [s.split('\n')] *)
Fixpoint split_nl (s : string) : list string :=
  match s with
  | EmptyString => [EmptyString]
  | String c s' =>
      if Ascii.eqb c LF then EmptyString :: split_nl s'
      else match split_nl s' with
           | [] => [String c EmptyString]
           | l :: ls => String c l :: ls
           end
  end.

(** [round(x)] with one argument: to the nearest integer, a tie goes to
    the even one.  The argument is an exact rational here; the binary
    rounding of the product [len(batches) * test_size] is left out. *)
Definition py_round (q : Q) : Z :=
  let f := Qfloor q in
  match Qcompare (q - inject_Z f) (1 # 2) with
  | Lt => f
  | Gt => (f + 1)%Z
  | Eq => if Z.even f then f else (f + 1)%Z
  end.

(** The position a slice bound stands for in a list of length [len]. *)
Definition slice_index (len i : Z) : nat :=
  Z.to_nat (if (i <? 0)%Z then Z.max 0 (len + i) else Z.min i len).

(** [l[:j]] *)
Definition slice_to {A : Type} (l : list A) (j : Z) : list A :=
  take (slice_index (Z.of_nat (length l)) j) l.

(** [l[i:]] *)
Definition slice_from {A : Type} (l : list A) (i : Z) : list A :=
  drop (slice_index (Z.of_nat (length l)) i) l.

(** [[f.write(x + '\n') for x in xs]] *)
Fixpoint write_lines (f : file) (xs : list string) : result file :=
  match xs with
  | [] => Ok f
  | x :: xs' => f' ← write f (x +:+ nl); write_lines f' xs'
  end.

(** The two lists [batches_to_sets] writes: [(train, test)]. *)
Definition train_test (batches : list string) (test_size : Q)
  : list string * list string :=
  let n_test := py_round (inject_Z (Z.of_nat (length batches)) * test_size) in
  let n_train := (Z.of_nat (length batches) - n_test)%Z in
  (slice_to batches n_train, slice_from batches (- n_test)%Z).

Definition batches_to_sets (fs : gmap string string) (db_id : string)
    (test_size : Q) : result (gmap string string) :=
  '(fs0, ft) ← open fs ("./data/" +:+ db_id +:+ ".dataf") Fr;
  '(text, _) ← read ft;
  let batches := split_nl text in
  let '(train, test) := train_test batches test_size in
  '(fs1, ftrain) ← open fs0 ("./data/" +:+ db_id +:+ ".train") Fw;
  ftrain ← write_lines ftrain train;
  let fs2 := close fs1 ftrain in
  '(fs3, ftest) ← open fs2 ("./data/" +:+ db_id +:+ ".test") Fw;
  ftest ← write_lines ftest test;
  Ok (close fs3 ftest).

(** ** A JSON codec for records of scalars

    An instance of [Json] that writes a record the way [json.dumps] does
    with its default arguments (separators [", "] and [": "], every
    character outside [' '..'~'] escaped) and reads such text back, white
    space between the tokens allowed.  Keys appear in the order of the
    map, not in the order of insertion. *)

Module PyJson.

Definition hex_digit (n : N) : ascii :=
  ascii_of_N (if (n <? 10)%N then 48 + n else 87 + n).

(** The text that stands for one character inside a JSON string. *)
Definition escape_char (c : ascii) : string :=
  let n := N_of_ascii c in
  if (n =? 34)%N then String "\" (String DQ EmptyString)
  else if (n =? 92)%N then "\\"
  else if (n =? 10)%N then "\n"
  else if (n =? 13)%N then "\r"
  else if (n =? 9)%N then "\t"
  else if (n =? 8)%N then "\b"
  else if (n =? 12)%N then "\f"
  else if ((n <? 32) || (126 <? n))%N
       then String "\" (String "u" (String "0" (String "0"
              (String (hex_digit (n / 16)) (String (hex_digit (n mod 16))
                 EmptyString)))))
  else String c EmptyString.

Fixpoint escape (s : string) : string :=
  match s with
  | EmptyString => EmptyString
  | String c s' => escape_char c +:+ escape s'
  end.

Definition quote (s : string) : string :=
  String DQ (escape s +:+ String DQ EmptyString).

Definition dumps_int (z : Z) : string :=
  NilEmpty.string_of_int (Z.to_int z).

Definition dumps_value (v : value) : string :=
  match v with
  | VInt z => dumps_int z
  | VStr s => quote s
  end.

Definition dumps_member (m : string * value) : string :=
  quote m.1 +:+ ": " +:+ dumps_value m.2.

Fixpoint dumps_members (ms : list (string * value)) : string :=
  match ms with
  | [] => EmptyString
  | [m] => dumps_member m
  | m :: ms' => dumps_member m +:+ ", " +:+ dumps_members ms'
  end.

Definition dumps (r : gmap string value) : string :=
  "{" +:+ dumps_members (map_to_list r) +:+ "}".

(** Reading. *)

Definition is_ws (c : ascii) : bool :=
  let n := N_of_ascii c in
  ((n =? 32) || (n =? 9) || (n =? 10) || (n =? 13))%N.

Fixpoint skip_ws (s : string) : string :=
  match s with
  | EmptyString => EmptyString
  | String c s' => if is_ws c then skip_ws s' else s
  end.

Definition hex_value (c : ascii) : option N :=
  let n := N_of_ascii c in
  if ((48 <=? n) && (n <=? 57))%N then Some (n - 48)%N
  else if ((97 <=? n) && (n <=? 102))%N then Some (n - 87)%N
  else if ((65 <=? n) && (n <=? 70))%N then Some (n - 55)%N
  else None.

(** The character [\uXXXX] stands for, when it is below 256. *)
Definition unicode_escape (h1 h2 h3 h4 : ascii) : option ascii :=
  a ← hex_value h1; b ← hex_value h2; c ← hex_value h3; d ← hex_value h4;
  if ((a =? 0) && (b =? 0))%N then Some (ascii_of_N (c * 16 + d)) else None.

(** The character a two-character escape stands for. *)
Definition simple_escape (e : ascii) : option ascii :=
  let n := N_of_ascii e in
  if (n =? 34)%N then Some DQ
  else if (n =? 92)%N then Some "\"%char
  else if (n =? 47)%N then Some "/"%char
  else if (n =? 110)%N then Some LF
  else if (n =? 114)%N then Some CR
  else if (n =? 116)%N then Some "009"%char
  else if (n =? 98)%N then Some "008"%char
  else if (n =? 102)%N then Some "012"%char
  else None.

(** A string from just after its opening quote: the string and what
    follows the closing quote. *)
Fixpoint loads_string (s : string) : option (string * string) :=
  match s with
  | EmptyString => None
  | String c s' =>
      if Ascii.eqb c DQ then Some (EmptyString, s')
      else if Ascii.eqb c "\" then
        match s' with
        | EmptyString => None
        | String e s'' =>
            if Ascii.eqb e "u" then
              match s'' with
              | String h1 (String h2 (String h3 (String h4 s5))) =>
                  d ← unicode_escape h1 h2 h3 h4;
                  '(r, rest) ← loads_string s5;
                  Some (String d r, rest)
              | _ => None
              end
            else
              d ← simple_escape e;
              '(r, rest) ← loads_string s'';
              Some (String d r, rest)
        end
      else if (N_of_ascii c <? 32)%N then None
      else '(r, rest) ← loads_string s'; Some (String c r, rest)
  end.

Definition is_num_char (c : ascii) : bool :=
  let n := N_of_ascii c in
  ((n =? 45) || (48 <=? n) && (n <=? 57))%N.

Fixpoint span_num (s : string) : string * string :=
  match s with
  | EmptyString => (EmptyString, EmptyString)
  | String c s' =>
      if is_num_char c
      then let '(a, b) := span_num s' in (String c a, b)
      else (EmptyString, s)
  end.

(** An integer in the form [dumps_int] writes. *)
Definition loads_int (s : string) : option (Z * string) :=
  let '(tok, rest) := span_num s in
  d ← NilEmpty.int_of_string tok;
  let z := Z.of_int d in
  if String.eqb (dumps_int z) tok then Some (z, rest) else None.

Definition loads_value (s : string) : option (value * string) :=
  match s with
  | String c s' =>
      if Ascii.eqb c DQ
      then '(r, rest) ← loads_string s'; Some (VStr r, rest)
      else '(z, rest) ← loads_int s; Some (VInt z, rest)
  | EmptyString => None
  end.

(** The members of an object from its first key to the closing brace. *)
Fixpoint loads_members (fuel : nat) (s : string)
  : option (list (string * value) * string) :=
  match fuel with
  | O => None
  | S fuel' =>
      match skip_ws s with
      | String c s1 =>
          if Ascii.eqb c DQ then
            '(k, s2) ← loads_string s1;
            match skip_ws s2 with
            | String c2 s3 =>
                if Ascii.eqb c2 ":" then
                  '(v, s4) ← loads_value (skip_ws s3);
                  match skip_ws s4 with
                  | String c4 s5 =>
                      if Ascii.eqb c4 "," then
                        '(ms, rest) ← loads_members fuel' s5;
                        Some ((k, v) :: ms, rest)
                      else if Ascii.eqb c4 "}" then Some ([(k, v)], s5)
                      else None
                  | EmptyString => None
                  end
                else None
            | EmptyString => None
            end
          else None
      | EmptyString => None
      end
  end.

(** [json.loads] on an object of scalars; of two members with one key the
    later one stays. *)
Definition loads (s : string) : option (gmap string value) :=
  match skip_ws s with
  | String c s1 =>
      if Ascii.eqb c "{" then
        match skip_ws s1 with
        | String c1 s2 =>
            if Ascii.eqb c1 "}" then
              match skip_ws s2 with
              | EmptyString => Some ∅
              | _ => None
              end
            else
              '(ms, rest) ← loads_members (String.length s) s1;
              match skip_ws rest with
              | EmptyString => Some (list_to_map (reverse ms))
              | _ => None
              end
        | EmptyString => None
        end
      else None
  | EmptyString => None
  end.

(** Predicates on the written text. *)

(** Every character is in [' '..'~']. *)
Fixpoint printable (s : string) : bool :=
  match s with
  | EmptyString => true
  | String c s' =>
      ((32 <=? N_of_ascii c) && (N_of_ascii c <=? 126))%N && printable s'
  end.

Fixpoint all_num (s : string) : bool :=
  match s with
  | EmptyString => true
  | String c s' => is_num_char c && all_num s'
  end.

Definition num_head (s : string) : bool :=
  match s with
  | String c _ => is_num_char c
  | EmptyString => false
  end.

Definition ws_head (s : string) : bool :=
  match s with
  | String c _ => is_ws c
  | EmptyString => false
  end.

End PyJson.

Global Instance py_json : Json :=
  {| dumps := PyJson.dumps; loads := PyJson.loads |}.


(** ** Scenarios

    Sequences of calls the properties below are about. *)

(** The path of the file behind a store. *)
Definition db_path (db_name : string) : string :=
  "./data/" +:+ db_name +:+ ".db".

Section Scenarios.
Context `{J : Json}.

(** [for jsonf in rs: self.insert(jsonf)] *)
Fixpoint insert_all (self : DB) (rs : list (gmap string value)) : result DB :=
  match rs with
  | [] => Ok self
  | jsonf :: rs' => self' ← insert self jsonf; insert_all self' rs'
  end.

(** The text [insert] writes for a sequence of records. *)
Fixpoint text_of (rs : list (gmap string value)) : string :=
  match rs with
  | [] => EmptyString
  | r :: rs' => dumps r +:+ nl +:+ text_of rs'
  end.

(** Open the store for append, insert the records, commit. *)
Definition append_session (fs : gmap string string) (db_name : string)
    (rs : list (gmap string value)) : result (gmap string string) :=
  '(fs1, d) ← DB_init fs db_name Fa;
  d' ← insert_all d rs;
  Ok (commit fs1 d').

(** Open the store for read and collect what [loop] yields. *)
Definition read_back (fs : gmap string string) (db_name : string)
  : result (list (gmap string value)) :=
  '(_, d) ← DB_init fs db_name Fr;
  loop d.

End Scenarios.

(** A hit record as [get_users] writes it. *)
Definition hit (user_id tweet_id : Z) (tweet_text label query : string)
  : gmap string value :=
  <["user_id" := VInt user_id]> (<["tweet_id" := VInt tweet_id]>
  (<["tweet_text" := VStr tweet_text]> (<["label" := VStr label]>
  (<["query" := VStr query]> ∅)))).

(** The text [write_lines] writes. *)
Fixpoint lines_text (xs : list string) : string :=
  match xs with
  | [] => EmptyString
  | x :: xs' => x +:+ nl +:+ lines_text xs'
  end.

(** The conditions [flip_label] tests, for a query that is a [str]. *)
Definition vetoed (self : DistantCollection) (text : string) : bool :=
  any ((λ it, py_in it text) <$> filter_ self).

Definition query_anchored (query text : string) : bool :=
  any ((λ affix, py_in (query +:+ affix) text) <$> query_tails).

Definition any_rule (self : DistantCollection) (text : string) : bool :=
  any ((λ f, py_in f text) <$> flip_any self).

Definition prefix_rule (self : DistantCollection) (query text : string)
  : bool :=
  any ((λ p, py_in (p +:+ query) text) <$> flip_prefix self).

(** The rule sets of the [__main__] block of src/sec3_data.py. *)
Definition fil : list string := ["rt "; String DQ EmptyString; ": "].

Definition flp_any : list string := ["according to"; "deep down"].

Definition flp_pfx : list string :=
  [" feel like "; " where "; " as if "; " hoping "; " assumed ";
   " think "; " assumes "; " assumed "; " assume that ";
   " assumed that "; " then "; " expect that "; " expect ";
   "that means "; " means "; " think "; " implying "; " guess ";
   " thinks "; " tells me "; " learned "; " if "].

(** A collection object whose stores are open for append and whose
    identity index is given. *)
Definition collection (db_id : string) (queries : gmap string value)
    (filters flip_any flip_prefix : list string)
    (user_ids query_ids : gmap value value) (clean_level : string)
  : DistantCollection :=
  mkDC db_id
       (mkDB Fa (mkfile (db_path (db_id +:+ "_fix")) Fa EmptyString
                        EmptyString))
       (mkDB Fa (mkfile (db_path (db_id +:+ "_msg_fix")) Fa EmptyString
                        EmptyString))
       queries filters flip_any flip_prefix user_ids query_ids clean_level.

(** A message record as [get_timelines] writes it. *)
Definition msg (tweet_id user_id : Z) (tweet_text : string)
  : gmap string value :=
  <["tweet_id" := VInt tweet_id]> (<["user_id" := VInt user_id]>
  (<["tweet_text" := VStr tweet_text]> ∅)).

(** The record [correct_query_tweets] appends for a hit, [None] when it
    appends none. *)
Definition corrected (self : DistantCollection) (line : gmap string value)
  : option (gmap string value) :=
  match line !! "user_id", line !! "tweet_id", line !! "tweet_text" with
  | Some uid, Some tid, Some (VStr s) =>
      match flip_label self uid tid (lower s) with
      | Ok (Some v) => if truthy v then Some (<["label" := v]> line) else None
      | _ => None
      end
  | _, _, _ => None
  end.

(** A hit the loop of [correct_query_tweets] gets through without an
    exception: the three fields are there, the text is a [str] and
    [flip_label] returns. *)
Definition passes (self : DistantCollection) (line : gmap string value)
  : Prop :=
  ∃ uid tid s r,
    line !! "user_id" = Some uid ∧ line !! "tweet_id" = Some tid ∧
    line !! "tweet_text" = Some (VStr s) ∧
    flip_label self uid tid (lower s) = Ok r.

(** ** More of the store *)

Section MoreStore.
Context `{J : Json}.

(** [list(self.fetch_key(key))]: the values [fetch_key] yields, in order;
    the first record without the key ends it with [KeyError]. *)
Definition fetch_key (self : DB) (key : string) : result (list value) :=
  for_loop self (λ jsf acc, v ← getitem jsf key; Ok (acc ++ [v])) [].

(** The loop body run over records instead of lines. *)
Fixpoint for_records {S : Type} (body : gmap string value → S → result S)
    (rs : list (gmap string value)) (s : S) : result S :=
  match rs with
  | [] => Ok s
  | r :: rs' => s' ← body r s; for_records body rs' s'
  end.

End MoreStore.

(** What a hit adds to the two maps. *)
Definition index_hit (ids : gmap value value * gmap value value)
    (r : gmap string value) : gmap value value * gmap value value :=
  match r !! "label", r !! "user_id", r !! "query", r !! "tweet_id" with
  | Some l, Some u, Some q, Some t => (<[u := l]> ids.1, <[t := q]> ids.2)
  | _, _, _, _ => ids
  end.

(** What a user record (['id'] and ['label'], no ['user_id']) adds. *)
Definition index_user (ids : gmap value value * gmap value value)
    (r : gmap string value) : gmap value value * gmap value value :=
  match r !! "label", r !! "id" with
  | Some l, Some i => (<[i := l]> ids.1, ids.2)
  | _, _ => ids
  end.

Definition is_hit (r : gmap string value) : Prop :=
  is_Some (r !! "label") ∧ is_Some (r !! "user_id") ∧
  is_Some (r !! "query") ∧ is_Some (r !! "tweet_id").

Definition is_user (r : gmap string value) : Prop :=
  is_Some (r !! "label") ∧ is_Some (r !! "id") ∧ r !! "user_id" = None.

(** The record [remove_query_tweets] writes for a message, [None] when it
    writes none. *)
Definition cleaned (self : DistantCollection) (line : gmap string value)
  : option (gmap string value) :=
  match line !! "user_id", line !! "tweet_id", line !! "tweet_text" with
  | Some uid, Some tid, Some (VStr s) =>
      match user_ids self !! uid with
      | Some label =>
          if (if String.eqb (clean_level self) "messages"
              then any ((λ query, py_in query (lower s)) <$>
                        (map_to_list (queries self)).*1)
              else bool_decide (is_Some (query_ids self !! tid)))
          then None
          else Some (<["distant_label" := label]> line)
      | None => None
      end
  | _, _, _ => None
  end.

(** A message of a known user with its three fields, the text a [str]. *)
Definition known_message (self : DistantCollection)
    (line : gmap string value) : Prop :=
  ∃ uid tid s label,
    line !! "user_id" = Some uid ∧ line !! "tweet_id" = Some tid ∧
    line !! "tweet_text" = Some (VStr s) ∧
    user_ids self !! uid = Some label.

(** ** [chunk] (src/sec3_data.py)

    [len(l) / n] is a float and [int] cuts it towards zero; for lists
    that fit in memory that is the integer quotient cut towards zero. *)

Inductive chunk_error : Type :=
| ZeroDivisionError
| ValueError.

(** [list(range(start, stop, step))] for a step that is not zero. *)
Definition py_range (start stop step : Z) : list Z :=
  let count :=
    if (0 <? step)%Z then ((stop - start + step - 1) / step)%Z
    else ((start - stop - step - 1) / (- step))%Z in
  (λ k, start + Z.of_nat k * step)%Z <$> seq 0 (Z.to_nat count).

(** [l[i:j]] *)
Definition py_slice {A : Type} (l : list A) (i j : Z) : list A :=
  let a := slice_index (Z.of_nat (length l)) i in
  let b := slice_index (Z.of_nat (length l)) j in
  take (b - a) (drop a l).

(** [list(chunk(l, n))]: the exception comes with the first step of the
    generator. *)
Definition chunk {A : Type} (l : list A) (n : Z)
  : chunk_error + list (list A) :=
  if (n =? 0)%Z then inl ZeroDivisionError
  else
    let n' := Z.quot (Z.of_nat (length l)) n in
    if (n' =? 0)%Z then inl ValueError
    else inr ((λ i, py_slice l i (i + n')) <$>
              py_range 0 (Z.of_nat (length l)) n').

(** ** [data_to_batches] (src/sec3_proc.py)

    The tokenizer is called on every batch and its result is thrown away
    ([tokens = tweets] follows it); [spacy.load] and the tokenizer are
    taken to return. *)

Definition TAB : ascii := "009"%char.

(** [s.replace(a, b)] for two characters. *)
Fixpoint replace_char (a b : ascii) (s : string) : string :=
  match s with
  | EmptyString => EmptyString
  | String c s' =>
      String (if Ascii.eqb c a then b else c) (replace_char a b s')
  end.

(** [sep.join(xs)] *)
Fixpoint join (sep : string) (xs : list string) : string :=
  match xs with
  | [] => EmptyString
  | [x] => x
  | x :: xs' => x +:+ sep +:+ join sep xs'
  end.

(** [str(v)] *)
Definition str (v : value) : string :=
  match v with
  | VInt z => PyJson.dumps_int z
  | VStr s => s
  end.

(** [s.replace('\n', ' ').replace('\t', ' ')] *)
Definition clean (s : string) : string :=
  replace_char TAB " " (replace_char LF " " s).

(** The same on a value of a record; an [int] has no such method. *)
Definition clean_text (v : value) : result string :=
  match v with
  | VStr s => Ok (clean s)
  | VInt _ => Raise AttributeError
  end.

(** [tokens[1:] if tokens[0] == ' ' else tokens]; the text of a full
    batch is never empty, so [tokens[0]] is always there. *)
Definition strip_space (tokens : string) : string :=
  match tokens with
  | String c t => if Ascii.eqb c " " then t else tokens
  | EmptyString => EmptyString
  end.

Module Batches.

(** The variables of the loop and the output file. *)
Record state : Type := mkstate {
  batch : list string;
  label : string;
  cur_user : value;
  ft : file
}.

(** The body of the loop; [None] in the middle is the [continue]. *)
Definition step (bin_lab user_ids : gmap value value)
    (line : gmap string value) (st : state) : result state :=
  let prep := if truthy (cur_user st) then nl else EmptyString in
  uid ← getitem line "user_id";
  changed ← (if decide (cur_user st ≠ uid)
             then match (l ← getitem user_ids uid; getitem bin_lab l) with
                  | Ok v => Ok (Some (mkstate [] (str v) uid (ft st)))
                  | Raise KeyError => Ok None
                  | Raise e => Raise e
                  end
             else Ok (Some st));
  match changed with
  | None => Ok (mkstate [] (label st) (cur_user st) (ft st))
  | Some st =>
      if negb (String.eqb (label st) EmptyString) then
        tweet_text ← getitem line "tweet_text";
        text ← clean_text tweet_text;
        let batch' := batch st ++ [text] in
        if (length batch' =? 200)%nat then
          let tweets := join (String TAB EmptyString) batch' in
          let tokens := replace_char CR " " (strip_space tweets) in
          ft' ← write (ft st)
                  (prep +:+ "__label__" +:+ label st +:+ " " +:+ tokens);
          Ok (mkstate [] (label st) (cur_user st) ft')
        else Ok (mkstate batch' (label st) (cur_user st) (ft st))
      else Ok st
  end.

End Batches.

Section DataToBatches.
Context `{J : Json}.

Definition data_to_batches (fs : gmap string string) (db_id : string)
    (label_mapping : gmap value value) : result (gmap string string) :=
  let aff := if py_in "query" db_id || py_in "twitter" db_id
             then "_fix" else EmptyString in
  '(fs1, db) ← DB_init fs (db_id +:+ "_msg" +:+ aff) Fr;
  '(fs2, ft) ← open fs1 ("./data/" +:+ db_id +:+ ".dataf") Fw;
  '(fs3, ids) ← reconstruct_ids fs2 db_id;
  st ← for_loop db (Batches.step label_mapping ids.1)
         (Batches.mkstate [] EmptyString (VStr EmptyString) ft);
  Ok (close fs3 (Batches.ft st)).

End DataToBatches.

(** The store and the file [data_to_batches] works on. *)
Definition msg_store (db_id : string) : string :=
  db_id +:+ "_msg" +:+
  (if py_in "query" db_id || py_in "twitter" db_id
   then "_fix" else EmptyString).

Definition dataf (db_id : string) : string :=
  "./data/" +:+ db_id +:+ ".dataf".

(** What a file holds is empty or begins with a line break. *)
Definition starts_nl (s : string) : Prop :=
  s = EmptyString ∨ ∃ t, s = String LF t.

(** One line of the output: the label tag and the texts of a batch. *)
Definition batch_line (prep label : string) (texts : list string) : string :=
  prep +:+ "__label__" +:+ label +:+ " " +:+
  replace_char CR " " (strip_space (join (String TAB EmptyString) texts)).

(** * Properties *)

(** ** Strings *)

#[local] Arguments String.append !s1 s2 : simpl nomatch.

Lemma append_assoc (a b c : string) : (a +:+ b) +:+ c = a +:+ (b +:+ c).
Proof. induction a as [|x a IH]; simpl; [done | by rewrite IH]. Qed.

Lemma append_nil_r (a : string) : a +:+ EmptyString = a.
Proof. induction a as [|x a IH]; simpl; [done | by rewrite IH]. Qed.

(** ** The JSON codec satisfies the laws *)

Module PyJsonFacts.
Import PyJson.


Lemma printable_app (a b : string) :
  printable (a +:+ b) = printable a && printable b.
Proof.
  induction a as [|x a IH]; simpl; [done |].
  rewrite IH. by rewrite andb_assoc.
Qed.

Lemma printable_escape_char (c : ascii) : printable (escape_char c) = true.
Proof. by destruct c as [[] [] [] [] [] [] [] []]. Qed.

Lemma printable_escape (s : string) : printable (escape s) = true.
Proof.
  induction s as [|c s IH]; simpl; [done |].
  by rewrite printable_app, printable_escape_char, IH.
Qed.

Lemma printable_quote (s : string) : printable (quote s) = true.
Proof.
  unfold quote. simpl. by rewrite printable_app, printable_escape.
Qed.

Lemma printable_uint (d : Decimal.uint) :
  printable (NilEmpty.string_of_uint d) = true.
Proof. induction d; simpl; auto. Qed.

Lemma printable_int (z : Z) : printable (dumps_int z) = true.
Proof.
  unfold dumps_int. destruct (Z.to_int z); simpl; apply printable_uint.
Qed.

Lemma printable_value (v : value) : printable (dumps_value v) = true.
Proof. destruct v; [apply printable_int | apply printable_quote]. Qed.

Lemma printable_member (m : string * value) :
  printable (dumps_member m) = true.
Proof.
  unfold dumps_member.
  by rewrite !printable_app, printable_quote, printable_value.
Qed.

Lemma printable_members (ms : list (string * value)) :
  printable (dumps_members ms) = true.
Proof.
  induction ms as [|m ms IH]; [done |].
  destruct ms as [|m' ms]; [apply printable_member |].
  change (dumps_members (m :: m' :: ms))
    with (dumps_member m +:+ ", " +:+ dumps_members (m' :: ms)).
  by rewrite !printable_app, printable_member, IH.
Qed.

Lemma printable_dumps (r : gmap string value) : printable (dumps r) = true.
Proof.
  unfold dumps. change ("{" +:+ ?x) with (String "{" x).
  simpl. by rewrite printable_app, printable_members.
Qed.

Lemma printable_not_in (c : ascii) (s : string) :
  ((N_of_ascii c <? 32) || (126 <? N_of_ascii c))%N = true →
  printable s = true → py_in (String c EmptyString) s = false.
Proof.
  intros Hc. induction s as [|x s IH]; simpl; [done |].
  intros [Hx Hs]%andb_prop. rewrite (IH Hs), orb_false_r.
  destruct (ascii_dec c x) as [->|Hne]; [| done].
  exfalso. apply andb_prop in Hx as [H1 H2].
  apply N.leb_le in H1, H2.
  apply orb_prop in Hc as [H|H]; apply N.ltb_lt in H; lia.
Qed.

Lemma printable_one_line (s : string) : printable s = true → one_line s = true.
Proof.
  intros H. unfold one_line, nl.
  by rewrite !printable_not_in.
Qed.

(** *** Reading back what was written *)

Lemma loads_string_escape_char (c : ascii) (X : string) :
  loads_string (escape_char c +:+ X) =
  '(r, rest) ← loads_string X; Some (String c r, rest).
Proof. by destruct c as [[] [] [] [] [] [] [] []]. Qed.

Lemma loads_string_escape (s rest : string) :
  loads_string (escape s +:+ String DQ rest) = Some (s, rest).
Proof.
  induction s as [|c s IH]; simpl; [done |].
  by rewrite append_assoc, loads_string_escape_char, IH.
Qed.




Lemma skip_ws_head (s : string) : ws_head s = false → skip_ws s = s.
Proof. destruct s as [|c s]; simpl; [done |]. by intros ->. Qed.

Lemma span_num_app (a X : string) :
  all_num a = true → num_head X = false → span_num (a +:+ X) = (a, X).
Proof.
  intros Ha HX. induction a as [|c a IH]; simpl in *.
  - destruct X as [|x X]; simpl in *; [done |]. by rewrite HX.
  - apply andb_prop in Ha as [-> Ha]. by rewrite (IH Ha).
Qed.

Lemma all_num_uint (d : Decimal.uint) :
  all_num (NilEmpty.string_of_uint d) = true.
Proof. induction d; simpl; auto. Qed.

Lemma all_num_int (z : Z) : all_num (dumps_int z) = true.
Proof.
  unfold dumps_int. destruct (Z.to_int z); simpl; apply all_num_uint.
Qed.

Lemma loads_int_dumps (z : Z) (X : string) :
  num_head X = false → loads_int (dumps_int z +:+ X) = Some (z, X).
Proof.
  intros HX. unfold loads_int.
  rewrite (span_num_app _ _ (all_num_int z) HX).
  unfold dumps_int. rewrite NilEmpty.isi. simpl.
  by rewrite DecimalZ.of_to, String.eqb_refl.
Qed.

Lemma dumps_int_head (z : Z) :
  ∃ c t, dumps_int z = String c t ∧ is_num_char c = true.
Proof.
  pose proof (all_num_int z) as Hn.
  destruct (dumps_int z) as [|c t] eqn:E.
  - exfalso. pose proof (NilEmpty.isi (Z.to_int z)) as Hi.
    unfold dumps_int in E. rewrite E in Hi. simpl in Hi.
    injection Hi as Hi.
    pose proof (DecimalZ.of_to z) as Hz. rewrite <- Hi in Hz.
    subst z. discriminate E.
  - exists c, t. split; [done |]. simpl in Hn. by apply andb_prop in Hn as [? _].
Qed.

Lemma num_char_not_quote (c : ascii) :
  is_num_char c = true → Ascii.eqb c DQ = false ∧ is_ws c = false.
Proof. by destruct c as [[] [] [] [] [] [] [] []]. Qed.

Lemma dumps_value_head (v : value) (X : string) :
  ws_head (dumps_value v +:+ X) = false.
Proof.
  destruct v as [z|s]; simpl; [| done].
  destruct (dumps_int_head z) as (c & t & -> & Hc). simpl.
  by apply num_char_not_quote.
Qed.

Lemma loads_value_dumps (v : value) (X : string) :
  num_head X = false → loads_value (dumps_value v +:+ X) = Some (v, X).
Proof.
  intros HX. destruct v as [z|s]; simpl.
  - pose proof (loads_int_dumps z X HX) as Hl.
    destruct (dumps_int_head z) as (c & t & E & Hc). rewrite E in Hl |- *.
    simpl in Hl |- *. destruct (num_char_not_quote c Hc) as [-> _].
    by rewrite Hl.
  - rewrite append_assoc. simpl. by rewrite loads_string_escape.
Qed.

#[local] Arguments dumps_members : simpl never.
#[local] Arguments dumps_value : simpl never.
#[local] Arguments escape : simpl never.

Lemma dumps_member_app (m : string * value) (X : string) :
  dumps_member m +:+ X =
  String DQ (escape m.1 +:+
    String DQ (String ":" (String " " (dumps_value m.2 +:+ X)))).
Proof.
  unfold dumps_member, quote. simpl. by rewrite !append_assoc.
Qed.

Lemma dumps_members_app (m : string * value) (ms : list (string * value))
    (X : string) :
  dumps_members (m :: ms) +:+ X =
  dumps_member m +:+
    match ms with
    | [] => X
    | _ => String "," (String " " (dumps_members ms +:+ X))
    end.
Proof.
  destruct ms as [|m' ms]; [done |].
  change (dumps_members (m :: m' :: ms))
    with (dumps_member m +:+ ", " +:+ dumps_members (m' :: ms)).
  by rewrite !append_assoc.
Qed.

Lemma loads_members_dumps (ms : list (string * value)) :
  ms ≠ [] → ∀ (fuel : nat) (s rest : string),
  (length ms ≤ fuel)%nat →
  skip_ws s = dumps_members ms +:+ String "}" rest →
  loads_members fuel s = Some (ms, rest).
Proof.
  induction ms as [|[k v] ms IH]; [done |]. intros _ fuel s rest Hf Hs.
  destruct fuel as [|fuel]; [simpl in Hf; lia |].
  simpl in Hf. simpl loads_members. rewrite Hs.
  rewrite dumps_members_app, dumps_member_app. simpl.
  rewrite loads_string_escape. simpl.
  rewrite (skip_ws_head _ (dumps_value_head _ _)).
  destruct ms as [|m' ms].
  - by rewrite loads_value_dumps.
  - rewrite loads_value_dumps by done. simpl.
    rewrite (IH ltac:(done) fuel _ rest); [done | lia |].
    simpl. apply skip_ws_head.
    by rewrite dumps_members_app, dumps_member_app.
Qed.

Lemma length_append (a b : string) :
  String.length (a +:+ b) = String.length a + String.length b.
Proof. induction a as [|x a IH]; simpl; [done | by rewrite IH]. Qed.

Lemma dumps_members_length (ms : list (string * value)) :
  (length ms ≤ String.length (dumps_members ms))%nat.
Proof.
  induction ms as [|m ms IH]; simpl length; [lia |].
  rewrite <- (append_nil_r (dumps_members (m :: ms))).
  rewrite dumps_members_app, dumps_member_app.
  destruct ms as [|m' ms]; simpl; [lia |].
  rewrite !length_append. simpl.
  rewrite length_append, append_nil_r. simpl in IH |- *. lia.
Qed.

Lemma loads_dumps (r : gmap string value) : loads (dumps r +:+ nl) = Some r.
Proof.
  unfold loads, dumps.
  set (s := ("{" +:+ dumps_members (map_to_list r) +:+ "}") +:+ nl).
  assert (Hlen : (length (map_to_list r) ≤ String.length s)%nat).
  { subst s. rewrite !length_append.
    pose proof (dumps_members_length (map_to_list r)). lia. }
  assert (Hs : s = String "{" (dumps_members (map_to_list r) +:+ String "}" nl)).
  { subst s. simpl. by rewrite append_assoc. }
  rewrite Hs at 1. simpl skip_ws. simpl Ascii.eqb. cbv iota.
  destruct (map_to_list r) as [|m ms] eqn:E.
  - apply map_to_list_empty_iff in E as ->. done.
  - rewrite dumps_members_app, dumps_member_app. simpl skip_ws.
    simpl Ascii.eqb. cbv iota.
    rewrite (loads_members_dumps (m :: ms) ltac:(done) _ _ nl Hlen).
    + simpl. f_equal. symmetry. apply list_to_map_flip.
      rewrite E. by rewrite reverse_Permutation.
    + by rewrite dumps_members_app, dumps_member_app.
Qed.

End PyJsonFacts.

Global Instance py_json_laws : JsonLaws py_json.
Proof.
  split.
  - apply PyJsonFacts.loads_dumps.
  - intros r. apply PyJsonFacts.printable_one_line, PyJsonFacts.printable_dumps.
Qed.

(** ** Lines of a text file *)

Lemma py_in_char_cons (c x : ascii) (s : string) :
  py_in (String c EmptyString) (String x s) = false →
  x ≠ c ∧ py_in (String c EmptyString) s = false.
Proof.
  simpl. intros [H1 H2]%orb_false_elim. split; [| done].
  intros ->. destruct (ascii_dec c c); [by destruct s | done].
Qed.

Lemma ascii_eqb_ne (x c : ascii) : x ≠ c → Ascii.eqb x c = false.
Proof. intros H. by apply Ascii.eqb_neq. Qed.

Lemma one_line_inv (s : string) :
  one_line s = true →
  py_in nl s = false ∧ py_in (String CR EmptyString) s = false.
Proof.
  unfold one_line. intros [H1 H2]%andb_prop.
  by apply negb_true_iff in H1, H2.
Qed.

(** A line break ends the first line; the rest is read on its own. *)
Lemma readlines_line (l rest : string) :
  py_in nl l = false →
  readlines (l +:+ nl +:+ rest) = (l +:+ nl) :: readlines rest.
Proof.
  induction l as [|c l IH]; intros Hl; [done |].
  apply py_in_char_cons in Hl as [Hc Hl].
  change (String c l +:+ nl +:+ rest) with (String c (l +:+ nl +:+ rest)).
  cbn [readlines]. rewrite (ascii_eqb_ne _ _ Hc). by rewrite (IH Hl).
Qed.

(** Text without carriage returns is read as it is. *)
Lemma universal_newlines_app (a b : string) :
  py_in (String CR EmptyString) a = false →
  universal_newlines (a +:+ b) = a +:+ universal_newlines b.
Proof.
  induction a as [|c a IH]; intros Ha; [done |].
  apply py_in_char_cons in Ha as [Hc Ha].
  change (String c a +:+ b) with (String c (a +:+ b)).
  cbn [universal_newlines]. rewrite (ascii_eqb_ne _ _ Hc). by rewrite (IH Ha).
Qed.

Lemma universal_newlines_nonempty (s : string) :
  s ≠ EmptyString → universal_newlines s ≠ EmptyString.
Proof.
  destruct s as [|c s]; [done |]. intros _. simpl.
  destruct (Ascii.eqb c CR); [| done].
  destruct s as [|c' s]; [done |]. by destruct (Ascii.eqb c' LF).
Qed.

(** ** The store *)


(** [DB.__init__] never fails: a missing file is created first. *)
Lemma DB_init_read (fs : gmap string string) (db_name : string) :
  DB_init fs db_name Fr =
  match fs !! db_path db_name with
  | Some c =>
      Ok (fs, mkDB Fr (mkfile (db_path db_name) Fr (universal_newlines c)
                              EmptyString))
  | None =>
      Ok (<[db_path db_name := EmptyString]> fs,
          mkDB Fr (mkfile (db_path db_name) Fr EmptyString EmptyString))
  end.
Proof.
  unfold DB_init. fold (db_path db_name). simpl.
  destruct (fs !! db_path db_name) as [c|] eqn:E; [done |].
  unfold close. simpl. rewrite !lookup_insert_eq. simpl.
  by rewrite insert_insert_eq.
Qed.

Lemma DB_init_append (fs : gmap string string) (db_name : string) :
  DB_init fs db_name Fa =
  Ok (match fs !! db_path db_name with
      | Some _ => fs
      | None => <[db_path db_name := EmptyString]> fs
      end,
      mkDB Fa (mkfile (db_path db_name) Fa EmptyString EmptyString)).
Proof. done. Qed.

Section StoreFacts.
Context `{J : Json}.



Lemma text_of_app (rs1 rs2 : list (gmap string value)) :
  text_of (rs1 ++ rs2) = text_of rs1 +:+ text_of rs2.
Proof.
  induction rs1 as [|r rs1 IH]; simpl; [done |].
  by rewrite IH, !append_assoc.
Qed.

Lemma insert_all_append (p u pend : string) (rs : list (gmap string value)) :
  insert_all (mkDB Fa (mkfile p Fa u pend)) rs =
  Ok (mkDB Fa (mkfile p Fa u (pend +:+ text_of rs))).
Proof.
  revert pend. induction rs as [|r rs IH]; intros pend; simpl.
  - by rewrite append_nil_r.
  - unfold insert, write. simpl. rewrite IH. by rewrite !append_assoc.
Qed.

Context `{!JsonLaws J}.

Lemma universal_newlines_text_of (rs : list (gmap string value)) :
  universal_newlines (text_of rs) = text_of rs.
Proof.
  induction rs as [|r rs IH]; cbn [text_of]; [done |].
  destruct (one_line_inv _ (dumps_one_line r)) as [_ Hcr].
  rewrite universal_newlines_app by done.
  change (nl +:+ text_of rs) with (String LF (text_of rs)).
  cbn [universal_newlines]. simpl Ascii.eqb. cbv iota. by rewrite IH.
Qed.

Lemma for_lines_text_of (rs acc : list (gmap string value)) :
  for_lines (λ jsf acc, Ok (acc ++ [jsf])) (readlines (text_of rs)) acc =
  Ok (acc ++ rs).
Proof.
  revert acc. induction rs as [|r rs IH]; intros acc; cbn [text_of].
  - simpl. by rewrite app_nil_r.
  - destruct (one_line_inv _ (dumps_one_line r)) as [Hlf _].
    rewrite readlines_line by done. simpl. rewrite loads_dumps. simpl.
    rewrite IH. by rewrite <- app_assoc.
Qed.

End StoreFacts.

(** ** Round trip through a store (C8) *)

Section RoundTrip.
Context `{J : Json}.



Lemma append_session_text (fs : gmap string string) (db_name : string)
    (rs : list (gmap string value)) :
  ∃ fs', append_session fs db_name rs = Ok fs' ∧
    fs' !! db_path db_name =
    Some (default EmptyString (fs !! db_path db_name) +:+ text_of rs).
Proof.
  unfold append_session. rewrite DB_init_append. simpl.
  rewrite insert_all_append. simpl. eexists. split; [done |].
  unfold commit, close. simpl. rewrite lookup_insert_eq.
  destruct (fs !! db_path db_name) eqn:E; simpl.
  - by rewrite E.
  - by rewrite lookup_insert_eq.
Qed.

Context `{!JsonLaws J}.

Lemma read_back_text (fs : gmap string string) (db_name : string)
    (rs : list (gmap string value)) :
  fs !! db_path db_name = Some (text_of rs) → read_back fs db_name = Ok rs.
Proof.
  intros E. unfold read_back. rewrite DB_init_read, E. simpl.
  unfold loop, for_loop. simpl.
  rewrite universal_newlines_text_of. apply for_lines_text_of.
Qed.

Lemma append_then_read (fs : gmap string string) (db_name : string)
    (prev rs : list (gmap string value)) :
  default EmptyString (fs !! db_path db_name) = text_of prev →
  ∃ fs', append_session fs db_name rs = Ok fs' ∧
    read_back fs' db_name = Ok (prev ++ rs).
Proof.
  intros Hprev.
  destruct (append_session_text fs db_name rs) as (fs' & Hs & Hfs').
  exists fs'. split; [done |]. apply read_back_text.
  by rewrite Hfs', Hprev, text_of_app.
Qed.

End RoundTrip.


(** C8, amended: the store keeps what it held.  For a store whose file is
    absent, empty, or holds the lines of the records [prev] that earlier
    sessions inserted, inserting [rs] in append mode and committing, then
    reopening for read and iterating with [loop], yields [prev] followed by
    [rs] in insertion order; on an absent or empty store that is exactly
    [rs]. *)
Theorem C8_append_then_read_yields_previous_then_inserted
    `{J : Json} `{!JsonLaws J}
    (fs : gmap string string) (db_name : string)
    (prev rs : list (gmap string value)) :
  default EmptyString (fs !! db_path db_name) = text_of prev →
  (∃ fs', append_session fs db_name rs = Ok fs' ∧
     read_back fs' db_name = Ok (prev ++ rs)) ∧
  (prev = [] →
   ∃ fs', append_session fs db_name rs = Ok fs' ∧ read_back fs' db_name = Ok rs).
Proof.
  intros Hprev. split; [by apply append_then_read |].
  intros ->. by apply (append_then_read fs db_name [] rs).
Qed.

Lemma C8_witness :
  default EmptyString
    (({[db_path "twitter_gender" :=
          text_of [hit 1 10 "i'm a girl now" "f" "m a girl"]]}
        : gmap string string) !! db_path "twitter_gender") =
  text_of [hit 1 10 "i'm a girl now" "f" "m a girl"] ∧
  ((∃ fs', append_session
             {[db_path "twitter_gender" :=
                 text_of [hit 1 10 "i'm a girl now" "f" "m a girl"]]}
             "twitter_gender" [hit 2 11 "i'm a boy." "m" "m a boy"] = Ok fs' ∧
      read_back fs' "twitter_gender" =
      Ok ([hit 1 10 "i'm a girl now" "f" "m a girl"] ++
          [hit 2 11 "i'm a boy." "m" "m a boy"])) ∧
   ([hit 1 10 "i'm a girl now" "f" "m a girl"] = [] →
    ∃ fs', append_session
             {[db_path "twitter_gender" :=
                 text_of [hit 1 10 "i'm a girl now" "f" "m a girl"]]}
             "twitter_gender" [hit 2 11 "i'm a boy." "m" "m a boy"] = Ok fs' ∧
      read_back fs' "twitter_gender" =
      Ok [hit 2 11 "i'm a boy." "m" "m a boy"])).
Proof.
  split; [by rewrite lookup_singleton_eq |].
  apply (C8_append_then_read_yields_previous_then_inserted (J := py_json)).
  by rewrite lookup_singleton_eq.
Defined.

(** C8 as stated fails on a store that already holds a record: reading
    back yields that record and then the inserted one. *)
Lemma C8_counterexample :
  ∃ fs', append_session (J := py_json)
           {[db_path "twitter_gender" :=
               text_of [hit 1 10 "i'm a girl now" "f" "m a girl"]]}
           "twitter_gender" [hit 2 11 "i'm a boy." "m" "m a boy"] = Ok fs' ∧
    read_back fs' "twitter_gender" =
    Ok [hit 1 10 "i'm a girl now" "f" "m a girl";
        hit 2 11 "i'm a boy." "m" "m a boy"] ∧
    read_back fs' "twitter_gender" ≠ Ok [hit 2 11 "i'm a boy." "m" "m a boy"].
Proof.
  destruct (append_then_read (J := py_json)
              {[db_path "twitter_gender" :=
                  text_of [hit 1 10 "i'm a girl now" "f" "m a girl"]]}
              "twitter_gender"
              [hit 1 10 "i'm a girl now" "f" "m a girl"]
              [hit 2 11 "i'm a boy." "m" "m a boy"])
    as (fs' & Hs & Hr); [by rewrite lookup_singleton_eq |].
  exists fs'. split; [done |]. split; [done |].
  rewrite Hr. intros [=].
Qed.

(** ** [reconstruct_ids] (C1) *)

(** C1, the defect: [uds.db.read()] moves the position of the corrected
    store to its end, so when that store has content the loop that follows
    finds no line left and both maps stay empty, whatever the store holds. *)
Theorem C1_reconstruct_ids_nonempty_fix_yields_empty_maps `{J : Json}
    (fs : gmap string string) (db_id c : string) :
  fs !! db_path (db_id +:+ "_fix") = Some c →
  c ≠ EmptyString →
  reconstruct_ids fs db_id = Ok (fs, (∅, ∅)).
Proof.
  intros Hfix Hc. unfold reconstruct_ids.
  rewrite DB_init_read, Hfix. simpl.
  pose proof (universal_newlines_nonempty c Hc) as Hne.
  destruct (universal_newlines c) as [|x u] eqn:E; [done |].
  by simpl.
Qed.

Lemma C1_witness :
  (({[db_path "twitter_gender_fix" :=
        text_of (J := py_json) [hit 1 10 "i'm a girl now" "f" "m a girl"]]}
      : gmap string string) !! db_path ("twitter_gender" +:+ "_fix") =
   Some (text_of (J := py_json) [hit 1 10 "i'm a girl now" "f" "m a girl"])) ∧
  text_of (J := py_json) [hit 1 10 "i'm a girl now" "f" "m a girl"]
    ≠ EmptyString ∧
  reconstruct_ids (J := py_json)
    {[db_path "twitter_gender_fix" :=
        text_of [hit 1 10 "i'm a girl now" "f" "m a girl"]]}
    "twitter_gender" =
  Ok ({[db_path "twitter_gender_fix" :=
          text_of [hit 1 10 "i'm a girl now" "f" "m a girl"]]}, (∅, ∅)).
Proof.
  assert (H1 : ({[db_path "twitter_gender_fix" :=
        text_of (J := py_json) [hit 1 10 "i'm a girl now" "f" "m a girl"]]}
      : gmap string string) !! db_path ("twitter_gender" +:+ "_fix") =
   Some (text_of (J := py_json) [hit 1 10 "i'm a girl now" "f" "m a girl"])).
  { apply lookup_singleton_eq. }
  assert (H2 : text_of (J := py_json)
                 [hit 1 10 "i'm a girl now" "f" "m a girl"] ≠ EmptyString).
  { vm_compute. discriminate. }
  split; [exact H1 |]. split; [exact H2 |].
  exact (C1_reconstruct_ids_nonempty_fix_yields_empty_maps (J := py_json)
           _ "twitter_gender" _ H1 H2).
Defined.

(** What parsing that corrected store gives: the maps C1 asks for. *)
Example corrected_store_parses :
  ('(_, d) ← DB_init
       {[db_path "twitter_gender_fix" :=
           text_of (J := py_json) [hit 1 10 "i'm a girl now" "f" "m a girl"]]}
       "twitter_gender_fix" Fr;
   for_loop (J := py_json) d reconstruct_line (∅, ∅)) =
  Ok ({[VInt 1 := VStr "f"]}, {[VInt 10 := VStr "m a girl"]}).
Proof. by vm_compute. Qed.

(** ** [batches_to_sets] (C2) *)

Lemma write_lines_text (p u pend : string) (xs : list string) :
  write_lines (mkfile p Fw u pend) xs =
  Ok (mkfile p Fw u (pend +:+ lines_text xs)).
Proof.
  revert pend. induction xs as [|x xs IH]; intros pend; simpl.
  - by rewrite append_nil_r.
  - unfold write. simpl. rewrite IH. by rewrite !append_assoc.
Qed.

Lemma split_nl_nonempty (s : string) : split_nl s ≠ [].
Proof.
  induction s as [|c s IH]; simpl; [done |].
  destruct (Ascii.eqb c LF); [done |]. by destruct (split_nl s).
Qed.

#[local] Arguments train_test : simpl never.

(** What [batches_to_sets] leaves in the test file. *)
Lemma batches_to_sets_files (fs : gmap string string) (db_id text : string)
    (test_size : Q) :
  fs !! ("./data/" +:+ db_id +:+ ".dataf") = Some text →
  ∃ fs', batches_to_sets fs db_id test_size = Ok fs' ∧
    fs' !! ("./data/" +:+ db_id +:+ ".test") =
    Some (lines_text
            (train_test (split_nl (universal_newlines text)) test_size).2).
Proof.
  intros Hft. unfold batches_to_sets, open. rewrite Hft. simpl.
  destruct (train_test (split_nl (universal_newlines text)) test_size)
    as [train test]. simpl.
  rewrite !write_lines_text. simpl.
  eexists. split; [done |].
  unfold close. simpl. rewrite lookup_insert_eq.
  by rewrite lookup_insert_eq.
Qed.

(** With a test count of zero the slice [batches[-0:]] is the whole list. *)
Lemma train_test_zero (batches : list string) (test_size : Q) :
  py_round (inject_Z (Z.of_nat (length batches)) * test_size) = 0%Z →
  train_test batches test_size = (batches, batches).
Proof.
  intros H0. unfold train_test. rewrite H0.
  unfold slice_to, slice_from, slice_index. simpl.
  rewrite Z.sub_0_r.
  destruct (Z.ltb_spec (Z.of_nat (length batches)) 0); [lia |].
  rewrite Z.min_id, Nat2Z.id, Z.min_l by lia.
  by rewrite firstn_all.
Qed.


(** C2, the defect: when [round(N * test_size)] is 0 the test file gets
    every line of the batch file, and that is never nothing. *)
Theorem C2_zero_test_count_writes_every_line_to_test
    (fs : gmap string string) (db_id text : string) (test_size : Q) :
  fs !! ("./data/" +:+ db_id +:+ ".dataf") = Some text →
  py_round (inject_Z (Z.of_nat
    (length (split_nl (universal_newlines text)))) * test_size) = 0%Z →
  ∃ fs', batches_to_sets fs db_id test_size = Ok fs' ∧
    fs' !! ("./data/" +:+ db_id +:+ ".test") =
    Some (lines_text (split_nl (universal_newlines text))) ∧
    fs' !! ("./data/" +:+ db_id +:+ ".test") ≠ Some EmptyString.
Proof.
  intros Hft H0.
  destruct (batches_to_sets_files fs db_id text test_size Hft)
    as (fs' & Hr & Ht).
  rewrite (train_test_zero _ _ H0) in Ht. cbn [snd] in Ht.
  exists fs'. split; [done |]. split; [done |].
  rewrite Ht. intros [= E].
  pose proof (split_nl_nonempty (universal_newlines text)) as Hne.
  destruct (split_nl (universal_newlines text)) as [|x xs]; [done |].
  simpl in E. destruct x; discriminate E.
Qed.

Lemma C2_witness :
  (({["./data/query_gender.dataf" :=
        "__label__1 a" +:+ nl +:+ "__label__0 b"]} : gmap string string)
     !! ("./data/" +:+ "query_gender" +:+ ".dataf") =
   Some ("__label__1 a" +:+ nl +:+ "__label__0 b")) ∧
  py_round (inject_Z (Z.of_nat (length (split_nl (universal_newlines
    ("__label__1 a" +:+ nl +:+ "__label__0 b"))))) * (2 # 10)) = 0%Z ∧
  ∃ fs', batches_to_sets
           {["./data/query_gender.dataf" :=
               "__label__1 a" +:+ nl +:+ "__label__0 b"]}
           "query_gender" (2 # 10) = Ok fs' ∧
    fs' !! ("./data/" +:+ "query_gender" +:+ ".test") =
    Some (lines_text (split_nl (universal_newlines
            ("__label__1 a" +:+ nl +:+ "__label__0 b")))) ∧
    fs' !! ("./data/" +:+ "query_gender" +:+ ".test") ≠ Some EmptyString.
Proof.
  assert (H1 : ({["./data/query_gender.dataf" :=
        "__label__1 a" +:+ nl +:+ "__label__0 b"]} : gmap string string)
     !! ("./data/" +:+ "query_gender" +:+ ".dataf") =
   Some ("__label__1 a" +:+ nl +:+ "__label__0 b")).
  { apply lookup_singleton_eq. }
  assert (H2 : py_round (inject_Z (Z.of_nat (length (split_nl
    (universal_newlines ("__label__1 a" +:+ nl +:+ "__label__0 b")))))
      * (2 # 10)) = 0%Z).
  { vm_compute. reflexivity. }
  split; [exact H1 |]. split; [exact H2 |].
  exact (C2_zero_test_count_writes_every_line_to_test _ "query_gender" _ _
           H1 H2).
Defined.

(** On that batch file of two lines the test file is the two lines. *)
Example batches_to_sets_two_lines :
  (fs' ← batches_to_sets
           {["./data/query_gender.dataf" :=
               "__label__1 a" +:+ nl +:+ "__label__0 b"]}
           "query_gender" (2 # 10);
   Ok (fs' !! "./data/query_gender.train", fs' !! "./data/query_gender.test"))
  = Ok (Some ("__label__1 a" +:+ nl +:+ "__label__0 b" +:+ nl),
        Some ("__label__1 a" +:+ nl +:+ "__label__0 b" +:+ nl)).
Proof. by vm_compute. Qed.

(** ** [flip_label] *)

Lemma comprehension_ok {A B : Type} (f : A → result B) (g : A → B)
    (l : list A) :
  (∀ a, f a = Ok (g a)) → comprehension f l = Ok (g <$> l).
Proof.
  intros Hf. induction l as [|a l IH]; simpl; [done |].
  by rewrite Hf, IH.
Qed.

(** The filter check comes first and needs neither map. *)
Lemma flip_label_vetoed (self : DistantCollection) (uid tid : value)
    (text : string) :
  vetoed self text = true → flip_label self uid tid text = Ok None.
Proof. unfold vetoed, flip_label. by intros ->. Qed.

(** A text that is not vetoed, with both ids known: the label is flipped
    when the query stands before a tail and one of the two rules holds. *)
Lemma flip_label_known (self : DistantCollection) (uid tid label : value)
    (query text : string) :
  vetoed self text = false →
  user_ids self !! uid = Some label →
  query_ids self !! tid = Some (VStr query) →
  flip_label self uid tid text =
  Ok (Some (if query_anchored query text &&
               (any_rule self text || prefix_rule self query text)
            then flipped label else label)).
Proof.
  unfold vetoed, query_anchored, any_rule, prefix_rule, flip_label, getitem.
  intros -> -> ->. cbn [mbind result_bind].
  rewrite (comprehension_ok
             (λ affix, s ← str_add (VStr query) affix; Ok (py_in s text))
             (λ affix, py_in (query +:+ affix) text))
    by (intros; reflexivity).
  cbn [mbind result_bind].
  destruct (any ((λ affix, py_in (query +:+ affix) text) <$> query_tails));
    [| done].
  cbn [andb].
  destruct (any ((λ f, py_in f text) <$> flip_any self)); [done |].
  rewrite (comprehension_ok _ (λ p, py_in (p +:+ query) text))
    by (intros; reflexivity).
  cbn [mbind result_bind orb]. by destruct (any _).
Qed.

(** A text that is not vetoed, with an id missing: the lookup raises. *)
Lemma flip_label_missing (self : DistantCollection) (uid tid : value)
    (text : string) :
  vetoed self text = false →
  user_ids self !! uid = None ∨ query_ids self !! tid = None →
  flip_label self uid tid text = Raise KeyError.
Proof.
  unfold vetoed, flip_label, getitem. intros -> [H|H].
  - by rewrite H.
  - rewrite H. by destruct (user_ids self !! uid).
Qed.

(** C3, amended: with the query ["a girl"] labelled ['f'], empty filter and
    [flip_any], and [flip_prefix] either [[" guess "]] or the list of the
    main block, [flip_label] on ["i guess i'm a girl now"] returns ['f']:
    [" guess "] does not stand immediately before ["a girl"].  With the
    query ["i'm a girl"] it returns ['m']. *)
Theorem C3_guess_prefix_flips_only_next_to_query
    (self : DistantCollection) (uid tid : value) (query : string) :
  user_ids self !! uid = Some (VStr "f") →
  query_ids self !! tid = Some (VStr query) →
  filter_ self = [] →
  flip_any self = [] →
  flip_prefix self = [" guess "] ∨ flip_prefix self = flp_pfx →
  (query = "a girl" →
   flip_label self uid tid "i guess i'm a girl now" = Ok (Some (VStr "f"))) ∧
  (query = "i'm a girl" →
   flip_label self uid tid "i guess i'm a girl now" = Ok (Some (VStr "m"))).
Proof.
  intros Hu Hq Hf Ha Hp.
  assert (Hv : vetoed self "i guess i'm a girl now" = false).
  { unfold vetoed. by rewrite Hf. }
  rewrite (flip_label_known self uid tid _ query _ Hv Hu Hq).
  unfold any_rule, prefix_rule. rewrite Ha.
  split; intros ->; destruct Hp as [-> | ->]; by vm_compute.
Qed.

Lemma C3_witness :
  let self := collection "twitter_gender" {["m a girl" := VStr "f"]}
                [] [] [" guess "] {[VInt 1 := VStr "f"]}
                {[VInt 10 := VStr "a girl"]} "messages" in
  (("a girl" = "a girl" →
    flip_label self (VInt 1) (VInt 10) "i guess i'm a girl now" =
    Ok (Some (VStr "f"))) ∧
   ("a girl" = "i'm a girl" →
    flip_label self (VInt 1) (VInt 10) "i guess i'm a girl now" =
    Ok (Some (VStr "m")))).
Proof.
  intros self.
  apply (C3_guess_prefix_flips_only_next_to_query self (VInt 1) (VInt 10)
           "a girl").
  - reflexivity.
  - reflexivity.
  - reflexivity.
  - reflexivity.
  - left. reflexivity.
Defined.

(** C3 as stated fails: the call returns ['f'], not ['m']. *)
Lemma C3_counterexample :
  flip_label
    (collection "twitter_gender" {["m a girl" := VStr "f"]}
       [] [] [" guess "] {[VInt 1 := VStr "f"]}
       {[VInt 10 := VStr "a girl"]} "messages")
    (VInt 1) (VInt 10) "i guess i'm a girl now" ≠ Ok (Some (VStr "m")).
Proof. by vm_compute. Qed.

Lemma any_rule_in (self : DistantCollection) (f text : string) :
  f ∈ flip_any self → py_in f text = true → any_rule self text = true.
Proof.
  unfold any_rule. intros Hin Hf.
  induction (flip_any self) as [|x l IH]; [by apply elem_of_nil in Hin |].
  change (any ((λ f, py_in f text) <$> (x :: l)))
    with (py_in x text || any ((λ f, py_in f text) <$> l)).
  apply elem_of_cons in Hin as [<- | Hin].
  - by rewrite Hf.
  - rewrite (IH Hin). apply orb_true_r.
Qed.

(** C4, amended: with the query ["a girl"] labelled ['f'] and an empty
    filter, [flip_label] on ["according to him i'm a girl"] returns ['f']
    whatever the two flip lists hold, because the query ends the text and
    none of the six tails follows it.  On ["according to him i'm a girl."]
    it returns ['m'] when [flip_any] contains ["according to"]. *)
Theorem C4_flip_any_needs_a_tail_after_the_query
    (self : DistantCollection) (uid tid : value) :
  user_ids self !! uid = Some (VStr "f") →
  query_ids self !! tid = Some (VStr "a girl") →
  filter_ self = [] →
  flip_label self uid tid "according to him i'm a girl" =
    Ok (Some (VStr "f")) ∧
  ("according to" ∈ flip_any self →
   flip_label self uid tid "according to him i'm a girl." =
     Ok (Some (VStr "m"))).
Proof.
  intros Hu Hq Hf.
  assert (Hv : ∀ text, vetoed self text = false).
  { intros text. unfold vetoed. by rewrite Hf. }
  split.
  - by rewrite (flip_label_known self uid tid _ "a girl" _ (Hv _) Hu Hq).
  - intros Hin.
    rewrite (flip_label_known self uid tid _ "a girl" _ (Hv _) Hu Hq).
    by rewrite (any_rule_in self "according to" _ Hin).
Qed.

Lemma C4_witness :
  let self := collection "twitter_gender" {["m a girl" := VStr "f"]}
                [] ["according to"] [] {[VInt 1 := VStr "f"]}
                {[VInt 10 := VStr "a girl"]} "messages" in
  flip_label self (VInt 1) (VInt 10) "according to him i'm a girl" =
    Ok (Some (VStr "f")) ∧
  ("according to" ∈ flip_any self →
   flip_label self (VInt 1) (VInt 10) "according to him i'm a girl." =
     Ok (Some (VStr "m"))).
Proof.
  intros self.
  apply (C4_flip_any_needs_a_tail_after_the_query self (VInt 1) (VInt 10)).
  - reflexivity.
  - reflexivity.
  - reflexivity.
Defined.

(** C4 as stated fails: the call returns ['f'], not ['m']. *)
Lemma C4_counterexample :
  flip_label
    (collection "twitter_gender" {["m a girl" := VStr "f"]}
       [] ["according to"] [] {[VInt 1 := VStr "f"]}
       {[VInt 10 := VStr "a girl"]} "messages")
    (VInt 1) (VInt 10) "according to him i'm a girl" ≠ Ok (Some (VStr "m")).
Proof. by vm_compute. Qed.

(** C5, amended: with [user_id] or [tweet_id] missing from its map,
    [flip_label] raises [KeyError] on every text that no filter substring
    occurs in; on a text with a filter substring it returns [None] and
    looks up neither map. *)
Theorem C5_missing_key_raises_unless_filtered
    (self : DistantCollection) (uid tid : value) (text : string) :
  user_ids self !! uid = None ∨ query_ids self !! tid = None →
  (vetoed self text = false →
   flip_label self uid tid text = Raise KeyError) ∧
  (vetoed self text = true →
   flip_label self uid tid text = Ok None).
Proof.
  intros Hmiss. split; intros Hv.
  - by apply flip_label_missing.
  - by apply flip_label_vetoed.
Qed.

Lemma C5_witness :
  let self := collection "twitter_gender" {["m a girl" := VStr "f"]}
                fil flp_any flp_pfx ∅ ∅ "messages" in
  (vetoed self "i'm a girl now" = false →
   flip_label self (VInt 1) (VInt 10) "i'm a girl now" = Raise KeyError) ∧
  (vetoed self "i'm a girl now" = true →
   flip_label self (VInt 1) (VInt 10) "i'm a girl now" = Ok None).
Proof.
  intros self.
  apply (C5_missing_key_raises_unless_filtered self (VInt 1) (VInt 10)).
  left. reflexivity.
Defined.

(** C5 as stated fails: with both maps empty and the filter of the main
    block, a retweet gets [None] and no error. *)
Lemma C5_counterexample :
  let self := collection "twitter_gender" {["m a girl" := VStr "f"]}
                fil flp_any flp_pfx ∅ ∅ "messages" in
  user_ids self !! VInt 1 = None ∧
  query_ids self !! VInt 10 = None ∧
  flip_label self (VInt 1) (VInt 10) "rt @x: i'm a girl now" = Ok None ∧
  flip_label self (VInt 1) (VInt 10) "rt @x: i'm a girl now" ≠ Raise KeyError.
Proof. by vm_compute. Qed.

(** C7, amended: for known ids and a text that no filter substring occurs
    in, when the query stands before a tail, a [flip_any] substring occurs
    and a [flip_prefix] substring stands right before the query, the result
    is the stored label flipped once. *)
Theorem C7_both_rules_flip_once
    (self : DistantCollection) (uid tid label : value)
    (query text : string) :
  user_ids self !! uid = Some label →
  query_ids self !! tid = Some (VStr query) →
  vetoed self text = false →
  query_anchored query text = true →
  any_rule self text = true →
  prefix_rule self query text = true →
  flip_label self uid tid text = Ok (Some (flipped label)).
Proof.
  intros Hu Hq Hv Hb Ha Hp.
  rewrite (flip_label_known self uid tid label query text Hv Hu Hq).
  by rewrite Hb, Ha.
Qed.

Lemma C7_witness :
  let self := collection "twitter_gender" {["m a girl" := VStr "f"]}
                fil flp_any flp_pfx {[VInt 1 := VStr "f"]}
                {[VInt 10 := VStr "i'm a girl"]} "messages" in
  flip_label self (VInt 1) (VInt 10)
    "according to him i guess i'm a girl now" =
  Ok (Some (flipped (VStr "f"))).
Proof.
  intros self.
  apply (C7_both_rules_flip_once self (VInt 1) (VInt 10) (VStr "f")
           "i'm a girl").
  - reflexivity.
  - reflexivity.
  - vm_compute. reflexivity.
  - vm_compute. reflexivity.
  - vm_compute. reflexivity.
  - vm_compute. reflexivity.
Defined.

(** C7 as stated fails on a text a filter substring occurs in: the three
    conditions hold and the result is [None], not the flipped label. *)
Lemma C7_counterexample :
  let self := collection "twitter_gender" {["m a girl" := VStr "f"]}
                fil flp_any flp_pfx {[VInt 1 := VStr "f"]}
                {[VInt 10 := VStr "i'm a girl"]} "messages" in
  let text := "rt @x according to him i guess i'm a girl now" in
  query_anchored "i'm a girl" text = true ∧
  any_rule self text = true ∧
  prefix_rule self "i'm a girl" text = true ∧
  flip_label self (VInt 1) (VInt 10) text = Ok None ∧
  flip_label self (VInt 1) (VInt 10) text ≠ Ok (Some (flipped (VStr "f"))).
Proof. by vm_compute. Qed.

(** ['f'] and ['m'] are the two labels [flipped] exchanges. *)
Lemma flipped_involutive_iff (label : value) :
  flipped (flipped label) = label ↔ label = VStr "f" ∨ label = VStr "m".
Proof.
  unfold flipped. split.
  - destruct (decide (label = VStr "f")) as [-> | Hf]; [by left |].
    simpl. intros <-. by right.
  - by intros [-> | ->].
Qed.

(** C10: when a flip rule triggers (known ids, no filter substring, the
    query before a tail, and a [flip_any] or [flip_prefix] match) the
    result is ['m'] for the label ['f'] and ['f'] for every other label, so
    flipping twice gives the label back exactly for ['f'] and ['m']. *)
Theorem C10_flip_maps_f_to_m_and_anything_else_to_f
    (self : DistantCollection) (uid tid label : value)
    (query text : string) :
  user_ids self !! uid = Some label →
  query_ids self !! tid = Some (VStr query) →
  vetoed self text = false →
  query_anchored query text = true →
  any_rule self text = true ∨ prefix_rule self query text = true →
  (label = VStr "f" → flip_label self uid tid text = Ok (Some (VStr "m"))) ∧
  (label ≠ VStr "f" → flip_label self uid tid text = Ok (Some (VStr "f"))) ∧
  (label ≠ VStr "f" → label ≠ VStr "m" →
   flip_label self uid tid text = Ok (Some (VStr "f")) ∧
   flipped (flipped label) ≠ label) ∧
  (flipped (flipped label) = label ↔ label = VStr "f" ∨ label = VStr "m").
Proof.
  intros Hu Hq Hv Hb Hrule.
  rewrite (flip_label_known self uid tid label query text Hv Hu Hq), Hb.
  assert (Hr : any_rule self text || prefix_rule self query text = true).
  { destruct Hrule as [-> | ->]; [done | apply orb_true_r]. }
  rewrite Hr. simpl. unfold flipped at 1 2 3.
  split; [by intros -> |].
  split; [intros Hf; by destruct (decide (label = VStr "f")) |].
  split; [| apply flipped_involutive_iff].
  intros Hf Hm. split; [by destruct (decide (label = VStr "f")) |].
  intros H%flipped_involutive_iff. by destruct H.
Qed.

Lemma C10_witness :
  let self := collection "twitter_gender" {["m a girl" := VStr "f"]}
                fil flp_any flp_pfx {[VInt 1 := VStr "F"]}
                {[VInt 10 := VStr "i'm a girl"]} "messages" in
  let text := "i guess i'm a girl now" in
  (VStr "F" = VStr "f" →
   flip_label self (VInt 1) (VInt 10) text = Ok (Some (VStr "m"))) ∧
  (VStr "F" ≠ VStr "f" →
   flip_label self (VInt 1) (VInt 10) text = Ok (Some (VStr "f"))) ∧
  (VStr "F" ≠ VStr "f" → VStr "F" ≠ VStr "m" →
   flip_label self (VInt 1) (VInt 10) text = Ok (Some (VStr "f")) ∧
   flipped (flipped (VStr "F")) ≠ VStr "F") ∧
  (flipped (flipped (VStr "F")) = VStr "F" ↔
   VStr "F" = VStr "f" ∨ VStr "F" = VStr "m").
Proof.
  intros self text.
  apply (C10_flip_maps_f_to_m_and_anything_else_to_f self (VInt 1) (VInt 10)
           (VStr "F") "i'm a girl" text).
  - reflexivity.
  - reflexivity.
  - vm_compute. reflexivity.
  - vm_compute. reflexivity.
  - right. vm_compute. reflexivity.
Defined.

(** ** [correct_query_tweets] (C9) *)

Section Correct.
Context `{J : Json}.

Lemma correct_line_passes (self : DistantCollection)
    (line : gmap string value) (p u pend : string) :
  passes self line →
  correct_line self line (mkDB Fa (mkfile p Fa u pend)) =
  Ok (mkDB Fa (mkfile p Fa u
        (pend +:+ text_of (option_list (corrected self line))))).
Proof.
  intros (uid & tid & s & r & Hu & Ht & Hs & Hr).
  unfold correct_line, corrected, getitem. rewrite Hu, Ht, Hs.
  cbn [mbind result_bind lower_of]. rewrite Hr. cbn [mbind result_bind].
  destruct r as [v|]; [| simpl; by rewrite append_nil_r].
  destruct (truthy v); [| simpl; by rewrite append_nil_r].
  unfold insert, write. by simpl.
Qed.

Context `{!JsonLaws J}.

Lemma for_lines_correct (self : DistantCollection)
    (rs : list (gmap string value)) (p u pend : string) :
  Forall (passes self) rs →
  for_lines (correct_line self) (readlines (text_of rs))
    (mkDB Fa (mkfile p Fa u pend)) =
  Ok (mkDB Fa (mkfile p Fa u
        (pend +:+ text_of (omap (corrected self) rs)))).
Proof.
  intros Hrs. revert pend.
  induction Hrs as [|r rs Hr Hrs IH]; intros pend; cbn [text_of omap list_omap].
  - simpl. by rewrite append_nil_r.
  - destruct (one_line_inv _ (dumps_one_line r)) as [Hlf _].
    rewrite readlines_line by done. cbn [for_lines]. rewrite loads_dumps.
    rewrite (correct_line_passes self r p u pend Hr). cbn [mbind result_bind].
    rewrite IH. destruct (corrected self r) as [r'|]; simpl option_list.
    + cbn [text_of]. by rewrite !append_assoc.
    + cbn [text_of]. by rewrite append_nil_r.
Qed.

(** The corrected store after the pass: what it held, then the corrected
    record of every hit for which [flip_label] returned a true value. *)
Lemma correct_query_tweets_store (fs : gmap string string)
    (self : DistantCollection) (rs : list (gmap string value)) :
  fs !! db_path (id_ self) = Some (text_of rs) →
  hit_fix self =
    mkDB Fa (mkfile (db_path (id_ self +:+ "_fix")) Fa EmptyString
               EmptyString) →
  Forall (passes self) rs →
  ∃ fs' self', correct_query_tweets fs self = Ok (fs', self') ∧
    fs' !! db_path (id_ self +:+ "_fix") =
    Some (default EmptyString (fs !! db_path (id_ self +:+ "_fix")) +:+
          text_of (omap (corrected self) rs)).
Proof.
  intros Hfs Hfix Hrs. unfold correct_query_tweets.
  rewrite DB_init_read, Hfs. cbn [mbind result_bind].
  unfold for_loop. cbn [mode db unread]. rewrite universal_newlines_text_of.
  rewrite Hfix, (for_lines_correct self rs _ _ _ Hrs).
  cbn [mbind result_bind]. eexists _, _. split; [done |].
  unfold commit, close. simpl. by rewrite lookup_insert_eq.
Qed.

End Correct.

(** A hit is appended exactly when [flip_label] returns a true value. *)
Lemma corrected_iff_truthy (self : DistantCollection)
    (line : gmap string value) (uid tid : value) (s : string) :
  line !! "user_id" = Some uid →
  line !! "tweet_id" = Some tid →
  line !! "tweet_text" = Some (VStr s) →
  (∃ v, flip_label self uid tid (lower s) = Ok (Some v) ∧ truthy v = true ∧
        corrected self line = Some (<["label" := v]> line)) ∨
  ((∀ r, flip_label self uid tid (lower s) = Ok r → truthy_opt r = false) ∧
   corrected self line = None).
Proof.
  intros Hu Ht Hs. unfold corrected. rewrite Hu, Ht, Hs.
  destruct (flip_label self uid tid (lower s)) as [[v|]|e].
  - destruct (truthy v) eqn:Hv.
    + left. by exists v.
    + right. split; [| done]. by intros r [= <-].
  - right. split; [| done]. by intros r [= <-].
  - right. split; [| done]. by intros r [=].
Qed.

(** C9, amended: the corrected store gets the corrected record of a hit
    exactly when [flip_label] returns a true value.  A hit whose stored
    label is the empty string, with no filter substring in its text, is
    dropped like a vetoed one when no flip rule fires; when a flip rule
    fires its label becomes ['f'] and the record is appended. *)
Theorem C9_falsy_label_dropped_unless_a_rule_flips_it
    `{J : Json} `{!JsonLaws J}
    (fs : gmap string string) (self : DistantCollection)
    (rs : list (gmap string value)) :
  fs !! db_path (id_ self) = Some (text_of rs) →
  hit_fix self =
    mkDB Fa (mkfile (db_path (id_ self +:+ "_fix")) Fa EmptyString
               EmptyString) →
  Forall (passes self) rs →
  (∃ fs' self', correct_query_tweets fs self = Ok (fs', self') ∧
     fs' !! db_path (id_ self +:+ "_fix") =
     Some (default EmptyString (fs !! db_path (id_ self +:+ "_fix")) +:+
           text_of (omap (corrected self) rs))) ∧
  (∀ line uid tid s,
     line !! "user_id" = Some uid →
     line !! "tweet_id" = Some tid →
     line !! "tweet_text" = Some (VStr s) →
     (∃ v, flip_label self uid tid (lower s) = Ok (Some v) ∧
           truthy v = true ∧
           corrected self line = Some (<["label" := v]> line)) ∨
     ((∀ r, flip_label self uid tid (lower s) = Ok r →
            truthy_opt r = false) ∧
      corrected self line = None)) ∧
  (∀ line uid tid s query,
     line !! "user_id" = Some uid →
     line !! "tweet_id" = Some tid →
     line !! "tweet_text" = Some (VStr s) →
     user_ids self !! uid = Some (VStr EmptyString) →
     query_ids self !! tid = Some (VStr query) →
     vetoed self (lower s) = false →
     corrected self line =
     if query_anchored query (lower s) &&
        (any_rule self (lower s) || prefix_rule self query (lower s))
     then Some (<["label" := VStr "f"]> line)
     else None).
Proof.
  intros Hfs Hfix Hrs.
  split; [by apply correct_query_tweets_store |].
  split; [intros line uid tid s; apply corrected_iff_truthy |].
  intros line uid tid s query Hu Ht Hs Hlab Hq Hv.
  unfold corrected. rewrite Hu, Ht, Hs.
  rewrite (flip_label_known self uid tid _ query _ Hv Hlab Hq).
  by destruct (query_anchored query (lower s) &&
               (any_rule self (lower s) || prefix_rule self query (lower s))).
Qed.

Lemma C9_witness :
  let self := collection "twitter_gender" {["i'm a girl" := VStr "f"]}
                fil flp_any flp_pfx
                {[VInt 1 := VStr EmptyString]}
                {[VInt 10 := VStr "i'm a girl"]} "messages" in
  let rs := [hit 1 10 "I'm a girl now" "f" "i'm a girl"] in
  ∃ fs' self',
    correct_query_tweets (J := py_json)
      {[db_path "twitter_gender" := text_of rs]} self = Ok (fs', self') ∧
    fs' !! db_path (id_ self +:+ "_fix") =
    Some (default EmptyString
            (({[db_path "twitter_gender" := text_of rs]}
                : gmap string string) !! db_path (id_ self +:+ "_fix")) +:+
          text_of (omap (corrected self) rs)).
Proof.
  intros self rs.
  apply (C9_falsy_label_dropped_unless_a_rule_flips_it (J := py_json)
           {[db_path "twitter_gender" := text_of rs]} self rs).
  - apply lookup_singleton_eq.
  - reflexivity.
  - repeat constructor.
    exists (VInt 1), (VInt 10), "I'm a girl now", (Some (VStr EmptyString)).
    vm_compute. repeat split.
Defined.

(** C9 as stated fails: a hit whose stored label is the empty string, with
    no filter substring in its text, is appended with the label ['f'] when
    a flip rule fires. *)
Lemma C9_counterexample :
  let self := collection "twitter_gender" {["i'm a girl" := VStr "f"]}
                fil flp_any flp_pfx
                {[VInt 1 := VStr EmptyString]}
                {[VInt 10 := VStr "i'm a girl"]} "messages" in
  let line := hit 1 10 "According to him I'm a girl now" EmptyString
                "i'm a girl" in
  user_ids self !! VInt 1 = Some (VStr EmptyString) ∧
  vetoed self (lower "According to him I'm a girl now") = false ∧
  (r ← correct_query_tweets (J := py_json)
         {[db_path "twitter_gender" := text_of [line]]} self;
   Ok (r.1 !! db_path "twitter_gender_fix")) =
  Ok (Some (text_of (J := py_json) [<["label" := VStr "f"]> line])).
Proof. by vm_compute. Qed.

(** ** [remove_query_tweets] (C6) *)

(** At the ['messages'] level a message is kept when none of the queries,
    as they are stored, occurs in the lower-cased text. *)
Lemma remove_line_messages `{J : Json} (self : DistantCollection)
    (line : gmap string value) (msg_fix : DB) (uid label : value)
    (s : string) :
  line !! "user_id" = Some uid →
  user_ids self !! uid = Some label →
  line !! "tweet_text" = Some (VStr s) →
  clean_level self = "messages" →
  remove_line self line msg_fix =
  if any ((λ query, py_in query (lower s)) <$>
          (map_to_list (queries self)).*1)
  then Ok msg_fix
  else insert msg_fix (<["distant_label" := label]> line).
Proof.
  intros Hu Hl Hs Hc. unfold remove_line, getitem.
  rewrite Hu. cbn [mbind result_bind]. rewrite Hl. cbn [mbind result_bind].
  rewrite Hc, String.eqb_refl.
  rewrite (comprehension_ok _ (λ query, py_in query (lower s))).
  - cbn [mbind result_bind]. by destruct (any _).
  - intros query. rewrite lookup_insert_ne by done. by rewrite Hs.
Qed.

(** C6, the defect: only the text is lower-cased.  With the query
    ["I'm a girl"], the form the class documentation gives, the message
    ["I'm a girl"] of a known user holds the query letter for letter and is
    still written to the corrected message store. *)
Theorem C6_query_with_a_capital_never_removes :
  let self := collection "twitter_gender" {["I'm a girl" := VStr "f"]}
                fil flp_any flp_pfx {[VInt 1 := VStr "f"]}
                {[VInt 10 := VStr "I'm a girl"]} "messages" in
  let m := msg 20 1 "I'm a girl" in
  py_in "I'm a girl" "I'm a girl" = true ∧
  py_in (lower "I'm a girl") (lower "I'm a girl") = true ∧
  (r ← remove_query_tweets (J := py_json)
         {[db_path "twitter_gender_msg" := text_of [m]]} self;
   Ok (pending (db (msg_fix r.2)))) =
  Ok (text_of (J := py_json) [<["distant_label" := VStr "f"]> m]).
Proof. by vm_compute. Qed.

(** With the same query in lower case the message is removed. *)
Example lower_case_query_removes :
  let self := collection "twitter_gender" {["i'm a girl" := VStr "f"]}
                fil flp_any flp_pfx {[VInt 1 := VStr "f"]}
                {[VInt 10 := VStr "i'm a girl"]} "messages" in
  (r ← remove_query_tweets (J := py_json)
         {[db_path "twitter_gender_msg" :=
             text_of [msg 20 1 "I'm a girl"]]} self;
   Ok (pending (db (msg_fix r.2)))) = Ok EmptyString.
Proof. by vm_compute. Qed.

(** * Further properties of the code *)

(** ** Opening a store *)


(** X2: the mode is enforced.  On a store opened for append [loop] raises
    [AssertionError] before it reads a line, and on a store opened for read
    [insert] raises and writes nothing. *)
Theorem X2_store_mode_is_enforced `{J : Json}
    (fs : gmap string string) (db_name : string)
    (jsonf : gmap string value) :
  (∀ fs' d, DB_init fs db_name Fa = Ok (fs', d) →
     loop d = Raise AssertionError ∧
     ∀ (S : Type) (body : gmap string value → S → result S) (s : S),
       for_loop d body s = Raise AssertionError) ∧
  (∀ fs' d, DB_init fs db_name Fr = Ok (fs', d) →
     insert d jsonf = Raise UnsupportedOperation).
Proof.
  split.
  - intros fs' d. rewrite DB_init_append. by intros [= <- <-].
  - intros fs' d. rewrite DB_init_read.
    destruct (fs !! db_path db_name); by intros [= <- <-].
Qed.

(** ** More on [flip_label] *)

Lemma py_in_empty (s : string) : py_in EmptyString s = true.
Proof. by destruct s. Qed.

(** X3: without the query before one of the six tails the stored label
    comes back unchanged, whatever the two flip lists hold. *)
Theorem X3_no_anchored_query_no_flip
    (self : DistantCollection) (uid tid label : value)
    (query text : string) :
  user_ids self !! uid = Some label →
  query_ids self !! tid = Some (VStr query) →
  vetoed self text = false →
  query_anchored query text = false →
  flip_label self uid tid text = Ok (Some label).
Proof.
  intros Hu Hq Hv Hb.
  by rewrite (flip_label_known self uid tid label query text Hv Hu Hq), Hb.
Qed.

Lemma X3_witness :
  flip_label
    (collection "twitter_gender" {["m a girl" := VStr "f"]}
       fil flp_any flp_pfx {[VInt 1 := VStr "f"]}
       {[VInt 10 := VStr "m a girl"]} "messages")
    (VInt 1) (VInt 10) "according to him i guess i'm a girlfriend" =
  Ok (Some (VStr "f")).
Proof.
  apply (X3_no_anchored_query_no_flip _ (VInt 1) (VInt 10) (VStr "f")
           "m a girl").
  - reflexivity.
  - reflexivity.
  - vm_compute. reflexivity.
  - vm_compute. reflexivity.
Defined.

(** X4: a label [flip_label] returns is the label stored for the user or
    that label flipped; no other value comes out. *)
Theorem X4_flip_label_returns_stored_or_flipped
    (self : DistantCollection) (uid tid v : value) (text : string) :
  flip_label self uid tid text = Ok (Some v) →
  ∃ label, user_ids self !! uid = Some label ∧
    (v = label ∨ v = flipped label) ∧
    (v = label ∨ v = VStr "f" ∨ v = VStr "m").
Proof.
  intros H.
  destruct (vetoed self text) eqn:Hv.
  { by rewrite (flip_label_vetoed self uid tid text Hv) in H. }
  destruct (user_ids self !! uid) as [label|] eqn:Hu.
  2:{ rewrite (flip_label_missing self uid tid text Hv) in H; [done | by left]. }
  destruct (query_ids self !! tid) as [[z|query]|] eqn:Hq.
  - unfold flip_label, getitem in H. unfold vetoed in Hv.
    by rewrite Hv, Hu, Hq in H.
  - rewrite (flip_label_known self uid tid label query text Hv Hu Hq) in H.
    exists label. split; [done |].
    destruct (query_anchored query text &&
              (any_rule self text || prefix_rule self query text));
      injection H as <-.
    + split; [by right |]. right. unfold flipped.
      destruct (decide (label = VStr "f")); [by right | by left].
    + split; by left.
  - rewrite (flip_label_missing self uid tid text Hv) in H; [done | by right].
Qed.

Lemma X4_witness :
  ∃ label,
    user_ids (collection "twitter_gender" {["m a girl" := VStr "f"]}
                fil flp_any flp_pfx {[VInt 1 := VStr "f"]}
                {[VInt 10 := VStr "i'm a girl"]} "messages") !! VInt 1 =
    Some label ∧
    (VStr "m" = label ∨ VStr "m" = flipped label) ∧
    (VStr "m" = label ∨ VStr "m" = VStr "f" ∨ VStr "m" = VStr "m").
Proof.
  apply (X4_flip_label_returns_stored_or_flipped _ (VInt 1) (VInt 10)
           (VStr "m") "i guess i'm a girl now").
  vm_compute. reflexivity.
Defined.

(** X5: a query that is an [int] makes [flip_label] raise [TypeError] on
    every text no filter substring occurs in, once the user is known. *)
Theorem X5_int_query_raises_TypeError
    (self : DistantCollection) (uid tid label : value) (z : Z)
    (text : string) :
  user_ids self !! uid = Some label →
  query_ids self !! tid = Some (VInt z) →
  vetoed self text = false →
  flip_label self uid tid text = Raise TypeError.
Proof.
  unfold vetoed, flip_label, getitem. by intros -> -> ->.
Qed.

Lemma X5_witness :
  flip_label
    (collection "twitter_gender" {["m a girl" := VStr "f"]}
       fil flp_any flp_pfx {[VInt 1 := VStr "f"]}
       {[VInt 10 := VInt 7]} "messages")
    (VInt 1) (VInt 10) "i'm a girl now" = Raise TypeError.
Proof.
  apply (X5_int_query_raises_TypeError _ (VInt 1) (VInt 10) (VStr "f") 7).
  - reflexivity.
  - reflexivity.
  - vm_compute. reflexivity.
Defined.

(** X6: an empty string among the filter substrings occurs in every text,
    so every call returns [None]: no hit is ever corrected. *)
Theorem X6_empty_filter_substring_vetoes_everything
    (self : DistantCollection) (uid tid : value) (text : string) :
  EmptyString ∈ filter_ self →
  flip_label self uid tid text = Ok None.
Proof.
  intros Hin. apply flip_label_vetoed. unfold vetoed.
  induction (filter_ self) as [|x l IH]; [by apply elem_of_nil in Hin |].
  change (any ((λ it, py_in it text) <$> (x :: l)))
    with (py_in x text || any ((λ it, py_in it text) <$> l)).
  apply elem_of_cons in Hin as [<- | Hin].
  - by rewrite py_in_empty.
  - rewrite (IH Hin). apply orb_true_r.
Qed.

Lemma X6_witness :
  flip_label
    (collection "twitter_gender" {["m a girl" := VStr "f"]}
       ["rt "; EmptyString] flp_any flp_pfx {[VInt 1 := VStr "f"]}
       {[VInt 10 := VStr "m a girl"]} "messages")
    (VInt 1) (VInt 10) "i'm a girl now" = Ok None.
Proof.
  apply X6_empty_filter_substring_vetoes_everything.
  apply list_elem_of_further, list_elem_of_here.
Defined.

(** ** Loops over a store written by [insert] *)

Section Loops.
Context `{J : Json} `{!JsonLaws J}.

(** Iterating over the text of [rs] runs the body on [rs]. *)
Lemma for_lines_records {S : Type}
    (body : gmap string value → S → result S)
    (rs : list (gmap string value)) (s : S) :
  for_lines body (readlines (text_of rs)) s = for_records body rs s.
Proof.
  revert s. induction rs as [|r rs IH]; intros s; cbn [text_of]; [done |].
  destruct (one_line_inv _ (dumps_one_line r)) as [Hlf _].
  rewrite readlines_line by done. cbn [for_lines for_records].
  rewrite loads_dumps. destruct (body r s) as [s'|e]; [| done].
  cbn [mbind result_bind]. apply IH.
Qed.

Lemma for_loop_records {S : Type} (fs : gmap string string)
    (db_name : string) (body : gmap string value → S → result S)
    (rs : list (gmap string value)) (s : S) :
  fs !! db_path db_name = Some (text_of rs) →
  ∃ d, DB_init fs db_name Fr = Ok (fs, d) ∧
    for_loop d body s = for_records body rs s.
Proof.
  intros E. rewrite DB_init_read, E. eexists. split; [done |].
  unfold for_loop. cbn [mode db unread].
  rewrite universal_newlines_text_of. apply for_lines_records.
Qed.

End Loops.

(** ** [fetch_key] *)

Lemma fetch_records_ok (key : string) (rs : list (gmap string value))
    (vs acc : list value) :
  Forall2 (λ r v, r !! key = Some v) rs vs →
  for_records (λ jsf acc, v ← getitem jsf key; Ok (acc ++ [v])) rs acc =
  Ok (acc ++ vs).
Proof.
  intros H. revert acc.
  induction H as [|r v rs vs Hr _ IH]; intros acc; cbn [for_records].
  - by rewrite app_nil_r.
  - unfold getitem in *. rewrite Hr. cbn [mbind result_bind].
    rewrite IH. by rewrite <- app_assoc.
Qed.

Lemma fetch_records_missing (key : string)
    (rs1 rs2 : list (gmap string value)) (r : gmap string value)
    (vs acc : list value) :
  Forall2 (λ r v, r !! key = Some v) rs1 vs →
  r !! key = None →
  for_records (λ jsf acc, v ← getitem jsf key; Ok (acc ++ [v]))
    (rs1 ++ r :: rs2) acc = Raise KeyError.
Proof.
  intros H Hr. revert acc.
  induction H as [|r1 v rs1 vs Hr1 _ IH]; intros acc;
    cbn [for_records app].
  - unfold getitem. by rewrite Hr.
  - unfold getitem in *. rewrite Hr1. cbn [mbind result_bind]. apply IH.
Qed.

(** X7: on a store that holds the records [rs], [fetch_key] yields the
    value of the key for every record, in order, when every record has the
    key; one record without it makes the whole iteration end in
    [KeyError], wherever it stands. *)
Theorem X7_fetch_key_values_or_KeyError `{J : Json} `{!JsonLaws J}
    (fs : gmap string string) (db_name key : string)
    (rs : list (gmap string value)) :
  fs !! db_path db_name = Some (text_of rs) →
  ∃ d, DB_init fs db_name Fr = Ok (fs, d) ∧
    (∀ vs, Forall2 (λ r v, r !! key = Some v) rs vs →
       fetch_key d key = Ok vs) ∧
    (∀ rs1 r rs2 vs,
       rs = rs1 ++ r :: rs2 →
       Forall2 (λ r v, r !! key = Some v) rs1 vs →
       r !! key = None →
       fetch_key d key = Raise KeyError).
Proof.
  intros E.
  destruct (for_loop_records fs db_name
              (λ jsf acc, v ← getitem jsf key; Ok (acc ++ [v])) rs [] E)
    as (d & Hd & Hl).
  exists d. split; [done |]. unfold fetch_key. rewrite Hl. split.
  - intros vs Hvs. by rewrite (fetch_records_ok key rs vs [] Hvs).
  - intros rs1 r rs2 vs -> Hvs Hr.
    by apply (fetch_records_missing key rs1 rs2 r vs).
Qed.

Lemma X7_witness :
  ∃ d, DB_init
         {[db_path "twitter_gender" :=
             text_of (J := py_json)
               [hit 1 10 "i'm a girl now" "f" "m a girl";
                msg 20 1 "hello"]]}
         "twitter_gender" Fr =
       Ok ({[db_path "twitter_gender" :=
               text_of (J := py_json)
                 [hit 1 10 "i'm a girl now" "f" "m a girl";
                  msg 20 1 "hello"]]}, d) ∧
    fetch_key (J := py_json) d "label" = Raise KeyError.
Proof.
  destruct (X7_fetch_key_values_or_KeyError (J := py_json)
              {[db_path "twitter_gender" :=
                  text_of (J := py_json)
                    [hit 1 10 "i'm a girl now" "f" "m a girl";
                     msg 20 1 "hello"]]}
              "twitter_gender" "label"
              [hit 1 10 "i'm a girl now" "f" "m a girl"; msg 20 1 "hello"])
    as (d & Hd & _ & Hk).
  - apply lookup_singleton_eq.
  - exists d. split; [exact Hd |].
    apply (Hk [hit 1 10 "i'm a girl now" "f" "m a girl"]
              (msg 20 1 "hello") [] [VStr "f"]).
    + reflexivity.
    + repeat constructor.
    + reflexivity.
Defined.

(** ** [reconstruct_ids] on the raw store *)

Lemma db_path_fix_ne (db_id : string) :
  db_path db_id ≠ db_path (db_id +:+ "_fix").
Proof.
  unfold db_path. intros H. simpl in H. injection H as H.
  rewrite append_assoc in H. apply (inj (String.append db_id)) in H.
  discriminate H.
Qed.

Section Fallback.
Context `{J : Json} `{!JsonLaws J}.

(** With the corrected store missing or empty the raw store is parsed. *)
Lemma reconstruct_ids_fallback (fs : gmap string string) (db_id : string)
    (rs : list (gmap string value)) :
  default EmptyString (fs !! db_path (db_id +:+ "_fix")) = EmptyString →
  fs !! db_path db_id = Some (text_of rs) →
  reconstruct_ids fs db_id =
  (ids ← for_records reconstruct_line rs (∅, ∅);
   Ok (<[db_path (db_id +:+ "_fix") := EmptyString]> fs, ids)).
Proof.
  intros Hfix Hraw. unfold reconstruct_ids. rewrite DB_init_read.
  assert (Hraw' : <[db_path (db_id +:+ "_fix") := EmptyString]> fs
                    !! db_path db_id = Some (text_of rs)).
  { rewrite lookup_insert_ne; [done |]. intros E. by apply (db_path_fix_ne db_id). }
  destruct (fs !! db_path (db_id +:+ "_fix")) as [c|] eqn:E.
  - simpl in Hfix. subst c. unfold read.
    cbn [mbind result_bind db fmode_of unread mode universal_newlines
         String.eqb].
    rewrite DB_init_read, Hraw.
    cbn [mbind result_bind]. unfold for_loop. cbn [mode db unread].
    rewrite universal_newlines_text_of, for_lines_records.
    by rewrite (insert_id fs _ _ E).
  - unfold read.
    cbn [mbind result_bind db fmode_of unread mode String.eqb].
    rewrite DB_init_read, Hraw'.
    cbn [mbind result_bind]. unfold for_loop. cbn [mode db unread].
    by rewrite universal_newlines_text_of, for_lines_records.
Qed.

End Fallback.

Lemma reconstruct_line_hit (r : gmap string value)
    (ids : gmap value value * gmap value value) :
  is_hit r → reconstruct_line r ids = Ok (index_hit ids r).
Proof.
  intros ([l Hl] & [u Hu] & [q Hq] & [t Ht]).
  unfold reconstruct_line, index_hit, getitem. destruct ids as [us qs].
  by rewrite Hl, Hu, Hq, Ht.
Qed.

Lemma reconstruct_line_user (r : gmap string value)
    (ids : gmap value value * gmap value value) :
  is_user r → reconstruct_line r ids = Ok (index_user ids r).
Proof.
  intros ([l Hl] & [i Hi] & Hu).
  unfold reconstruct_line, index_user, getitem. destruct ids as [us qs].
  by rewrite Hl, Hu, Hi.
Qed.

Lemma for_records_fold {S : Type} (body : gmap string value → S → result S)
    (f : S → gmap string value → S) (P : gmap string value → Prop)
    (rs : list (gmap string value)) (s : S) :
  (∀ r s, P r → body r s = Ok (f s r)) →
  Forall P rs → for_records body rs s = Ok (foldl f s rs).
Proof.
  intros Hb Hrs. revert s.
  induction Hrs as [|r rs Hr _ IH]; intros s; cbn [for_records foldl];
    [done |].
  rewrite (Hb r s Hr). cbn [mbind result_bind]. apply IH.
Qed.

(** The two maps built from hits: every user of a hit has a label, and
    every tweet id with a query comes from a hit whose user has one. *)
Lemma index_hits_invariant (rs : list (gmap string value)) :
  Forall is_hit rs →
  (∀ r uid, r ∈ rs → r !! "user_id" = Some uid →
     is_Some ((foldl index_hit (∅, ∅) rs).1 !! uid)) ∧
  (∀ tid, is_Some ((foldl index_hit (∅, ∅) rs).2 !! tid) →
     ∃ r uid, r ∈ rs ∧ r !! "tweet_id" = Some tid ∧
       r !! "user_id" = Some uid ∧
       is_Some ((foldl index_hit (∅, ∅) rs).1 !! uid)).
Proof.
  induction rs as [|r rs IH] using rev_ind; intros Hrs.
  - split.
    + intros r uid Hin. by apply elem_of_nil in Hin.
    + intros tid [x Hx]. cbn [foldl snd] in Hx. by rewrite lookup_empty in Hx.
  - apply Forall_app in Hrs as [Hrs Hr]. apply Forall_inv in Hr.
    destruct (IH Hrs) as [IH1 IH2]. rewrite foldl_app. cbn [foldl].
    destruct Hr as ([l Hl] & [u Hu] & [q Hq] & [t Ht]).
    assert (E : index_hit (foldl index_hit (∅, ∅) rs) r =
                (<[u := l]> (foldl index_hit (∅, ∅) rs).1,
                 <[t := q]> (foldl index_hit (∅, ∅) rs).2)).
    { unfold index_hit at 1. by rewrite Hl, Hu, Hq, Ht. }
    rewrite E. cbn [fst snd].
    split.
    + intros r' uid [Hin | Hin%list_elem_of_singleton]%elem_of_app Huid.
      * apply lookup_insert_is_Some'. right. by apply (IH1 r').
      * subst r'. rewrite Hu in Huid. injection Huid as <-.
        rewrite lookup_insert_eq. by eexists.
    + intros tid Htid. apply lookup_insert_is_Some' in Htid as [<- | Htid].
      * exists r, u. split; [apply elem_of_app; right; by apply list_elem_of_singleton |].
        split; [done |]. split; [done |]. rewrite lookup_insert_eq. by eexists.
      * destruct (IH2 tid Htid) as (r' & uid & Hin & Ht' & Hu' & Hs).
        exists r', uid. split; [apply elem_of_app; by left |].
        split; [done |]. split; [done |].
        apply lookup_insert_is_Some'. by right.
Qed.

(** X8: with the corrected store missing or empty, [reconstruct_ids]
    replays the hits of the raw store in order, a later hit replacing the
    label or query an earlier one gave; every user of a hit then has a
    label, and every tweet id in the query map comes from a hit whose user
    is in the label map. *)
Theorem X8_reconstruct_ids_replays_raw_hits `{J : Json} `{!JsonLaws J}
    (fs : gmap string string) (db_id : string)
    (rs : list (gmap string value)) :
  default EmptyString (fs !! db_path (db_id +:+ "_fix")) = EmptyString →
  fs !! db_path db_id = Some (text_of rs) →
  Forall is_hit rs →
  ∃ fs' us qs,
    reconstruct_ids fs db_id = Ok (fs', (us, qs)) ∧
    (us, qs) = foldl index_hit (∅, ∅) rs ∧
    (∀ r uid, r ∈ rs → r !! "user_id" = Some uid → is_Some (us !! uid)) ∧
    (∀ tid, is_Some (qs !! tid) →
       ∃ r uid, r ∈ rs ∧ r !! "tweet_id" = Some tid ∧
         r !! "user_id" = Some uid ∧ is_Some (us !! uid)) ∧
    (∀ rs1 r uid l, rs = rs1 ++ [r] →
       r !! "user_id" = Some uid → r !! "label" = Some l →
       us !! uid = Some l).
Proof.
  intros Hfix Hraw Hrs.
  rewrite (reconstruct_ids_fallback fs db_id rs Hfix Hraw).
  rewrite (for_records_fold _ index_hit is_hit rs (∅, ∅)
             (λ r s, reconstruct_line_hit r s) Hrs).
  cbn [mbind result_bind].
  destruct (index_hits_invariant rs Hrs) as [H1 H2].
  destruct (foldl index_hit (∅, ∅) rs) as [us qs] eqn:E.
  eexists _, us, qs. split; [done |]. split; [done |].
  split; [exact H1 |]. split; [exact H2 |].
  intros rs1 r uid l -> Hu Hl.
  apply Forall_app in Hrs as [_ Hr]. apply Forall_inv in Hr.
  destruct Hr as (_ & _ & [q Hq] & [t Ht]).
  rewrite foldl_app in E. cbn [foldl] in E.
  unfold index_hit at 1 in E. rewrite Hl, Hu, Hq, Ht in E.
  injection E as <- <-. by rewrite lookup_insert_eq.
Qed.

Lemma X8_witness :
  ∃ fs' us qs,
    reconstruct_ids (J := py_json)
      {[db_path "twitter_gender" :=
          text_of (J := py_json)
            [hit 1 10 "i'm a girl now" "f" "m a girl";
             hit 1 11 "i'm a boy." "m" "m a boy"]]}
      "twitter_gender" = Ok (fs', (us, qs)) ∧
    us !! VInt 1 = Some (VStr "m").
Proof.
  destruct (X8_reconstruct_ids_replays_raw_hits (J := py_json)
              {[db_path "twitter_gender" :=
                  text_of (J := py_json)
                    [hit 1 10 "i'm a girl now" "f" "m a girl";
                     hit 1 11 "i'm a boy." "m" "m a boy"]]}
              "twitter_gender"
              [hit 1 10 "i'm a girl now" "f" "m a girl";
               hit 1 11 "i'm a boy." "m" "m a boy"])
    as (fs' & us & qs & Hr & _ & _ & _ & Hlast).
  - reflexivity.
  - apply lookup_singleton_eq.
  - repeat constructor; by eexists.
  - exists fs', us, qs. split; [exact Hr |].
    apply (Hlast [hit 1 10 "i'm a girl now" "f" "m a girl"]
                 (hit 1 11 "i'm a boy." "m" "m a boy")); reflexivity.
Defined.

Lemma index_users_queries (rs : list (gmap string value))
    (ids : gmap value value * gmap value value) :
  (foldl index_user ids rs).2 = ids.2.
Proof.
  revert ids. induction rs as [|r rs IH]; intros ids; cbn [foldl]; [done |].
  rewrite IH. unfold index_user.
  by destruct (r !! "label"), (r !! "id").
Qed.

(** X9: the second schema.  With the corrected store missing or empty and
    a raw store of user records (['id'] and ['label'], no ['user_id']),
    [reconstruct_ids] maps each id to its label, a later record replacing
    an earlier one, and the query map stays empty. *)
Theorem X9_reconstruct_ids_reads_user_records `{J : Json} `{!JsonLaws J}
    (fs : gmap string string) (db_id : string)
    (rs : list (gmap string value)) :
  default EmptyString (fs !! db_path (db_id +:+ "_fix")) = EmptyString →
  fs !! db_path db_id = Some (text_of rs) →
  Forall is_user rs →
  ∃ fs' us,
    reconstruct_ids fs db_id = Ok (fs', (us, ∅)) ∧
    us = (foldl index_user (∅, ∅) rs).1 ∧
    (∀ r i, r ∈ rs → r !! "id" = Some i → is_Some (us !! i)) ∧
    (∀ rs1 r i l, rs = rs1 ++ [r] →
       r !! "id" = Some i → r !! "label" = Some l → us !! i = Some l).
Proof.
  intros Hfix Hraw Hrs.
  rewrite (reconstruct_ids_fallback fs db_id rs Hfix Hraw).
  rewrite (for_records_fold _ index_user is_user rs (∅, ∅)
             (λ r s, reconstruct_line_user r s) Hrs).
  cbn [mbind result_bind].
  pose proof (index_users_queries rs (∅, ∅)) as Hq. cbn [snd] in Hq.
  destruct (foldl index_user (∅, ∅) rs) as [us qs] eqn:E.
  cbn [snd] in Hq. subst qs.
  eexists _, us. split; [done |]. split; [done |]. split.
  - clear Hraw. revert us E.
    induction rs as [|r rs IH] using rev_ind; intros us E r' i Hin Hi.
    { by apply elem_of_nil in Hin. }
    apply Forall_app in Hrs as [Hrs Hr]. apply Forall_inv in Hr.
    destruct Hr as ([l Hl] & [j Hj] & _).
    rewrite foldl_app in E. cbn [foldl] in E.
    pose proof (index_users_queries rs (∅, ∅)) as Hq. cbn [snd] in Hq.
    destruct (foldl index_user (∅, ∅) rs) as [us0 qs0] eqn:E0.
    unfold index_user in E. rewrite Hl, Hj in E. injection E as <- _.
    apply elem_of_app in Hin as [Hin | Hin%list_elem_of_singleton].
    + apply lookup_insert_is_Some'. right. cbn [snd] in Hq. subst qs0.
      by apply (IH Hrs us0 eq_refl r').
    + subst r'. rewrite Hj in Hi. injection Hi as <-.
      rewrite lookup_insert_eq. by eexists.
  - intros rs1 r i l -> Hi Hl.
    rewrite foldl_app in E. cbn [foldl] in E.
    unfold index_user at 1 in E. rewrite Hl, Hi in E.
    injection E as <-. by rewrite lookup_insert_eq.
Qed.

Lemma X9_witness :
  ∃ fs' us,
    reconstruct_ids (J := py_json)
      {[db_path "query_gender" :=
          text_of (J := py_json)
            [<["id" := VInt 7]> (<["label" := VStr "f"]> ∅);
             <["id" := VInt 8]> (<["label" := VStr "m"]> ∅)]]}
      "query_gender" = Ok (fs', (us, ∅)) ∧
    us !! VInt 8 = Some (VStr "m").
Proof.
  destruct (X9_reconstruct_ids_reads_user_records (J := py_json)
              {[db_path "query_gender" :=
                  text_of (J := py_json)
                    [<["id" := VInt 7]> (<["label" := VStr "f"]> ∅);
                     <["id" := VInt 8]> (<["label" := VStr "m"]> ∅)]]}
              "query_gender"
              [<["id" := VInt 7]> (<["label" := VStr "f"]> ∅);
               <["id" := VInt 8]> (<["label" := VStr "m"]> ∅)])
    as (fs' & us & Hr & _ & _ & Hlast).
  - reflexivity.
  - apply lookup_singleton_eq.
  - repeat constructor; by eexists.
  - exists fs', us. split; [exact Hr |].
    apply (Hlast [<["id" := VInt 7]> (<["label" := VStr "f"]> ∅)]
                 (<["id" := VInt 8]> (<["label" := VStr "m"]> ∅)));
      reflexivity.
Defined.

(** A record is rejected exactly when it has no label, or has no ['id']
    and is not a complete hit. *)
Lemma reconstruct_line_KeyError (r : gmap string value)
    (ids : gmap value value * gmap value value) :
  r !! "label" = None ∨
  (r !! "id" = None ∧
   (r !! "user_id" = None ∨ r !! "query" = None ∨ r !! "tweet_id" = None)) →
  reconstruct_line r ids = Raise KeyError.
Proof.
  unfold reconstruct_line, getitem. destruct ids as [us qs].
  intros [Hl | [Hi H]].
  - by rewrite Hl.
  - rewrite Hi. destruct (r !! "label") as [l|]; [| done].
    destruct H as [H | [H | H]]; rewrite H; cbn;
      by repeat (match goal with |- context [r !! ?k] => destruct (r !! k) end;
                 cbn).
Qed.

Lemma for_records_raise {S : Type}
    (body : gmap string value → S → result S)
    (f : S → gmap string value → S) (P : gmap string value → Prop)
    (rs1 rs2 : list (gmap string value)) (r : gmap string value)
    (s : S) (e : exn) :
  (∀ r s, P r → body r s = Ok (f s r)) →
  Forall P rs1 →
  (∀ s, body r s = Raise e) →
  for_records body (rs1 ++ r :: rs2) s = Raise e.
Proof.
  intros Hb Hrs Hr. revert s.
  induction Hrs as [|r1 rs1 Hr1 _ IH]; intros s; cbn [for_records app].
  - by rewrite Hr.
  - rewrite (Hb r1 s Hr1). cbn [mbind result_bind]. apply IH.
Qed.

(** X10: one record that has no ['label'], or that has no ['id'] and
    lacks one of ['user_id'], ['query'], ['tweet_id'], makes the whole
    reconstruction raise [KeyError], after any number of complete hits:
    a message record in the store, for one, ends it. *)
Theorem X10_reconstruct_ids_incomplete_record_raises
    `{J : Json} `{!JsonLaws J}
    (fs : gmap string string) (db_id : string)
    (rs1 rs2 : list (gmap string value)) (r : gmap string value) :
  default EmptyString (fs !! db_path (db_id +:+ "_fix")) = EmptyString →
  fs !! db_path db_id = Some (text_of (rs1 ++ r :: rs2)) →
  Forall is_hit rs1 →
  r !! "label" = None ∨
  (r !! "id" = None ∧
   (r !! "user_id" = None ∨ r !! "query" = None ∨ r !! "tweet_id" = None)) →
  reconstruct_ids fs db_id = Raise KeyError.
Proof.
  intros Hfix Hraw Hrs Hr.
  rewrite (reconstruct_ids_fallback fs db_id _ Hfix Hraw).
  rewrite (for_records_raise _ index_hit is_hit rs1 rs2 r (∅, ∅) KeyError
             (λ r s, reconstruct_line_hit r s) Hrs); [done |].
  intros s. by apply reconstruct_line_KeyError.
Qed.

Lemma X10_witness :
  reconstruct_ids (J := py_json)
    {[db_path "twitter_gender" :=
        text_of (J := py_json)
          ([hit 1 10 "i'm a girl now" "f" "m a girl"] ++
           msg 20 1 "hello" :: [])]}
    "twitter_gender" = Raise KeyError.
Proof.
  apply (X10_reconstruct_ids_incomplete_record_raises (J := py_json) _
           "twitter_gender" [hit 1 10 "i'm a girl now" "f" "m a girl"] []
           (msg 20 1 "hello")).
  - reflexivity.
  - apply lookup_singleton_eq.
  - repeat constructor; by eexists.
  - left. reflexivity.
Defined.

(** ** [remove_query_tweets] on a store *)

Section Remove.
Context `{J : Json}.

Lemma remove_line_known (self : DistantCollection)
    (line : gmap string value) (p u pend : string) :
  known_message self line →
  remove_line self line (mkDB Fa (mkfile p Fa u pend)) =
  Ok (mkDB Fa (mkfile p Fa u
        (pend +:+ text_of (option_list (cleaned self line))))).
Proof.
  intros (uid & tid & s & label & Hu & Ht & Hs & Hl).
  unfold remove_line, cleaned, getitem. rewrite Hu, Ht, Hs.
  cbn [mbind result_bind]. rewrite Hl. cbn [mbind result_bind].
  destruct (String.eqb (clean_level self) "messages").
  - rewrite (comprehension_ok _ (λ query, py_in query (lower s))).
    2:{ intros query. rewrite lookup_insert_ne by done. by rewrite Hs. }
    cbn [mbind result_bind].
    destruct (any _); cbn [negb option_list text_of].
    + by rewrite append_nil_r.
    + unfold insert, write. by simpl.
  - rewrite lookup_insert_ne by done. rewrite Ht. cbn [mbind result_bind].
    destruct (bool_decide _); cbn [negb option_list text_of].
    + by rewrite append_nil_r.
    + unfold insert, write. by simpl.
Qed.

Lemma remove_line_unknown (self : DistantCollection)
    (line : gmap string value) (d : DB) :
  line !! "user_id" = None ∨
  (∃ uid, line !! "user_id" = Some uid ∧ user_ids self !! uid = None) →
  remove_line self line d = Raise KeyError.
Proof.
  unfold remove_line, getitem. intros [H | (uid & H & Hu)]; rewrite H.
  - done.
  - cbn [mbind result_bind]. by rewrite Hu.
Qed.

Lemma text_of_omap_cons
    (g : gmap string value → option (gmap string value))
    (r : gmap string value) (rs : list (gmap string value)) :
  text_of (omap g (r :: rs)) =
  text_of (option_list (g r)) +:+ text_of (omap g rs).
Proof.
  rewrite <- text_of_app. f_equal.
  change (omap g (r :: rs))
    with (match g r with Some y => y :: omap g rs | None => omap g rs end).
  by destruct (g r).
Qed.

(** A body that appends the text of at most one record per step. *)
Lemma for_records_append
    (body : gmap string value → DB → result DB)
    (g : gmap string value → option (gmap string value))
    (P : gmap string value → Prop)
    (rs : list (gmap string value)) (p u pend : string) :
  (∀ r pend, P r →
     body r (mkDB Fa (mkfile p Fa u pend)) =
     Ok (mkDB Fa (mkfile p Fa u (pend +:+ text_of (option_list (g r)))))) →
  Forall P rs →
  for_records body rs (mkDB Fa (mkfile p Fa u pend)) =
  Ok (mkDB Fa (mkfile p Fa u (pend +:+ text_of (omap g rs)))).
Proof.
  intros Hb Hrs. revert pend.
  induction Hrs as [|r rs Hr _ IH]; intros pend.
  - cbn [for_records omap list_omap text_of]. by rewrite append_nil_r.
  - cbn [for_records]. rewrite (Hb r pend Hr). cbn [mbind result_bind].
    rewrite IH, text_of_omap_cons. by rewrite append_assoc.
Qed.

Lemma for_records_append_raise
    (body : gmap string value → DB → result DB)
    (g : gmap string value → option (gmap string value))
    (P : gmap string value → Prop)
    (rs1 rs2 : list (gmap string value)) (r : gmap string value)
    (p u pend : string) (e : exn) :
  (∀ r pend, P r →
     body r (mkDB Fa (mkfile p Fa u pend)) =
     Ok (mkDB Fa (mkfile p Fa u (pend +:+ text_of (option_list (g r)))))) →
  Forall P rs1 →
  (∀ d, body r d = Raise e) →
  for_records body (rs1 ++ r :: rs2) (mkDB Fa (mkfile p Fa u pend)) =
  Raise e.
Proof.
  intros Hb Hrs Hr. revert pend.
  induction Hrs as [|r1 rs1 Hr1 _ IH]; intros pend; cbn [for_records app].
  - by rewrite Hr.
  - rewrite (Hb r1 pend Hr1). cbn [mbind result_bind]. apply IH.
Qed.

Context `{!JsonLaws J}.

Lemma remove_query_tweets_store (fs : gmap string string)
    (self : DistantCollection) (ms : list (gmap string value)) :
  fs !! db_path (id_ self +:+ "_msg") = Some (text_of ms) →
  msg_fix self =
    mkDB Fa (mkfile (db_path (id_ self +:+ "_msg_fix")) Fa EmptyString
               EmptyString) →
  Forall (known_message self) ms →
  ∃ self', remove_query_tweets fs self = Ok (fs, self') ∧
    pending (db (msg_fix self')) = text_of (omap (cleaned self) ms) ∧
    user_ids self' = user_ids self ∧ query_ids self' = query_ids self.
Proof.
  intros Hfs Hfix Hms. unfold remove_query_tweets.
  destruct (for_loop_records fs (id_ self +:+ "_msg") (remove_line self)
              ms (msg_fix self) Hfs) as (d & Hd & Hl).
  rewrite Hd. cbn [mbind result_bind]. rewrite Hl, Hfix.
  rewrite (for_records_append (remove_line self) (cleaned self)
             (known_message self) ms _ _ _
             (λ r pend, remove_line_known self r _ _ pend) Hms).
  cbn [mbind result_bind]. eexists. split; [done |]. by simpl.
Qed.

End Remove.




(** X12: every cleaning level other than ['messages'] (the documented
    ['historic'] too) is the query level: a message of a known user is
    written exactly when its tweet id is not a key of the query map,
    whatever its text and the queries are. *)
Theorem X12_other_levels_remove_only_hit_tweets
    `{J : Json} `{!JsonLaws J}
    (fs : gmap string string) (self : DistantCollection)
    (ms : list (gmap string value)) :
  clean_level self ≠ "messages" →
  fs !! db_path (id_ self +:+ "_msg") = Some (text_of ms) →
  msg_fix self =
    mkDB Fa (mkfile (db_path (id_ self +:+ "_msg_fix")) Fa EmptyString
               EmptyString) →
  Forall (known_message self) ms →
  ∃ self', remove_query_tweets fs self = Ok (fs, self') ∧
    pending (db (msg_fix self')) = text_of (omap (cleaned self) ms) ∧
    (∀ m tid, m ∈ ms → m !! "tweet_id" = Some tid →
       (is_Some (cleaned self m) ↔ query_ids self !! tid = None)).
Proof.
  intros Hlevel Hfs Hfix Hms.
  destruct (remove_query_tweets_store fs self ms Hfs Hfix Hms)
    as (self' & Hr & Hp & _).
  exists self'. split; [done |]. split; [done |].
  intros m tid Hin Ht.
  rewrite Forall_forall in Hms.
  destruct (Hms m Hin) as (uid & tid' & s & label & Hu & Ht' & Hs & Hl).
  rewrite Ht in Ht'. injection Ht' as <-.
  unfold cleaned. rewrite Hu, Ht, Hs, Hl.
  apply String.eqb_neq in Hlevel. rewrite Hlevel.
  destruct (query_ids self !! tid) as [q|] eqn:Hq.
  - rewrite bool_decide_true by by eexists.
    split; [by intros [x Hx] | done].
  - rewrite bool_decide_false by by intros [x Hx].
    split; [done | by eexists].
Qed.

Lemma X12_witness :
  let self := collection "twitter_gender" {["i'm a girl" := VStr "f"]}
                fil flp_any flp_pfx {[VInt 1 := VStr "f"]}
                {[VInt 10 := VStr "i'm a girl"]} "historic" in
  let ms := [msg 10 1 "I'm a girl now"; msg 20 1 "i'm a girl, really"] in
  ∃ self',
    remove_query_tweets (J := py_json)
      {[db_path "twitter_gender_msg" := text_of ms]} self =
    Ok ({[db_path "twitter_gender_msg" := text_of ms]}, self') ∧
    pending (db (msg_fix self')) = text_of (omap (cleaned self) ms) ∧
    (∀ m tid, m ∈ ms → m !! "tweet_id" = Some tid →
       (is_Some (cleaned self m) ↔ query_ids self !! tid = None)).
Proof.
  intros self ms.
  apply (X12_other_levels_remove_only_hit_tweets (J := py_json)
           {[db_path "twitter_gender_msg" := text_of ms]} self ms).
  - discriminate.
  - apply lookup_singleton_eq.
  - reflexivity.
  - repeat constructor.
    + exists (VInt 1), (VInt 10), "I'm a girl now", (VStr "f").
      repeat split; reflexivity.
    + exists (VInt 1), (VInt 20), "i'm a girl, really", (VStr "f").
      repeat split; reflexivity.
Defined.

(** X13: a message without ['user_id'], or of a user that is not in the
    label map, ends [remove_query_tweets] with [KeyError] at either level,
    after any number of messages of known users. *)
Theorem X13_remove_query_tweets_unknown_user_raises
    `{J : Json} `{!JsonLaws J}
    (fs : gmap string string) (self : DistantCollection)
    (ms1 ms2 : list (gmap string value)) (m : gmap string value) :
  fs !! db_path (id_ self +:+ "_msg") = Some (text_of (ms1 ++ m :: ms2)) →
  msg_fix self =
    mkDB Fa (mkfile (db_path (id_ self +:+ "_msg_fix")) Fa EmptyString
               EmptyString) →
  Forall (known_message self) ms1 →
  m !! "user_id" = None ∨
  (∃ uid, m !! "user_id" = Some uid ∧ user_ids self !! uid = None) →
  remove_query_tweets fs self = Raise KeyError.
Proof.
  intros Hfs Hfix Hms Hm. unfold remove_query_tweets.
  destruct (for_loop_records fs (id_ self +:+ "_msg") (remove_line self)
              (ms1 ++ m :: ms2) (msg_fix self) Hfs) as (d & Hd & Hl).
  rewrite Hd. cbn [mbind result_bind]. rewrite Hl, Hfix.
  rewrite (for_records_append_raise (remove_line self) (cleaned self)
             (known_message self) ms1 ms2 m _ _ _ KeyError
             (λ r pend, remove_line_known self r _ _ pend) Hms); [done |].
  intros d'. by apply remove_line_unknown.
Qed.

Lemma X13_witness :
  let self := collection "twitter_gender" {["m a girl" := VStr "f"]}
                fil flp_any flp_pfx {[VInt 1 := VStr "f"]}
                {[VInt 10 := VStr "m a girl"]} "messages" in
  remove_query_tweets (J := py_json)
    {[db_path "twitter_gender_msg" :=
        text_of ([msg 20 1 "hello"] ++ msg 30 2 "hi" :: [])]} self =
  Raise KeyError.
Proof.
  intros self.
  apply (X13_remove_query_tweets_unknown_user_raises (J := py_json)
           _ self [msg 20 1 "hello"] [] (msg 30 2 "hi")).
  - apply lookup_singleton_eq.
  - reflexivity.
  - repeat constructor.
    exists (VInt 1), (VInt 20), "hello", (VStr "f").
    repeat split; reflexivity.
  - right. exists (VInt 2). split; reflexivity.
Defined.

(** ** [correct_query_tweets] and what follows it *)

Section CorrectMore.
Context `{J : Json} `{!JsonLaws J}.

(** The file system and the collection after the pass. *)
Lemma correct_query_tweets_result (fs : gmap string string)
    (self : DistantCollection) (rs : list (gmap string value)) :
  fs !! db_path (id_ self) = Some (text_of rs) →
  hit_fix self =
    mkDB Fa (mkfile (db_path (id_ self +:+ "_fix")) Fa EmptyString
               EmptyString) →
  Forall (passes self) rs →
  ∃ self',
    correct_query_tweets fs self =
    Ok (<[db_path (id_ self +:+ "_fix") :=
            default EmptyString (fs !! db_path (id_ self +:+ "_fix")) +:+
            text_of (omap (corrected self) rs)]> fs, self') ∧
    user_ids self' = user_ids self ∧ query_ids self' = query_ids self.
Proof.
  intros Hfs Hfix Hrs. unfold correct_query_tweets.
  destruct (for_loop_records fs (id_ self) (correct_line self) rs
              (hit_fix self) Hfs) as (d & Hd & Hl).
  rewrite Hd. cbn [mbind result_bind]. rewrite Hl, Hfix.
  rewrite (for_records_append (correct_line self) (corrected self)
             (passes self) rs _ _ _
             (λ r pend Hr, correct_line_passes self r _ _ pend Hr) Hrs).
  cbn [mbind result_bind]. eexists. split.
  - unfold commit, close. by simpl.
  - done.
Qed.

End CorrectMore.

(** A label that comes out is the stored one or the stored one flipped. *)
Lemma flip_label_some (self : DistantCollection) (uid tid v : value)
    (text : string) :
  flip_label self uid tid text = Ok (Some v) →
  ∃ label, user_ids self !! uid = Some label ∧
    (v = label ∨ v = flipped label).
Proof.
  intros H.
  destruct (vetoed self text) eqn:Hv.
  { by rewrite (flip_label_vetoed self uid tid text Hv) in H. }
  destruct (user_ids self !! uid) as [label|] eqn:Hu.
  2:{ rewrite (flip_label_missing self uid tid text Hv) in H; [done | by left]. }
  destruct (query_ids self !! tid) as [[z|query]|] eqn:Hq.
  - unfold flip_label, getitem in H. unfold vetoed in Hv.
    by rewrite Hv, Hu, Hq in H.
  - rewrite (flip_label_known self uid tid label query text Hv Hu Hq) in H.
    exists label. split; [done |].
    destruct (query_anchored query text &&
              (any_rule self text || prefix_rule self query text));
      injection H as <-; [by right | by left].
  - rewrite (flip_label_missing self uid tid text Hv) in H; [done | by right].
Qed.

(** A corrected record is its hit with a true label put in, the stored
    label of the user or that label flipped. *)
Lemma corrected_inv (self : DistantCollection) (r r' : gmap string value) :
  corrected self r = Some r' →
  ∃ uid label v, r !! "user_id" = Some uid ∧
    user_ids self !! uid = Some label ∧
    r' = <["label" := v]> r ∧ truthy v = true ∧
    (v = label ∨ v = flipped label).
Proof.
  unfold corrected. intros H.
  destruct (r !! "user_id") as [uid|] eqn:Hu; [| done].
  destruct (r !! "tweet_id") as [tid|]; [| done].
  destruct (r !! "tweet_text") as [[z|s]|]; try done.
  destruct (flip_label self uid tid (lower s)) as [[v|]|e] eqn:Hf; try done.
  destruct (truthy v) eqn:Hv; [| done]. injection H as <-.
  destruct (flip_label_some self uid tid v _ Hf) as (label & Hl & Hor).
  by exists uid, label, v.
Qed.

(** X14: after [correct_query_tweets] on hits that raise no exception,
    with the corrected store empty before, reading the corrected store
    back yields, in the order of the hits, the kept hits; each is its hit
    with only ['label'] replaced, by a true value that is the stored label
    of the user or that label flipped.  The raw store and both maps are as
    before. *)
Theorem X14_corrected_store_reads_back `{J : Json} `{!JsonLaws J}
    (fs : gmap string string) (self : DistantCollection)
    (rs : list (gmap string value)) :
  fs !! db_path (id_ self) = Some (text_of rs) →
  default EmptyString (fs !! db_path (id_ self +:+ "_fix")) = EmptyString →
  hit_fix self =
    mkDB Fa (mkfile (db_path (id_ self +:+ "_fix")) Fa EmptyString
               EmptyString) →
  Forall (passes self) rs →
  ∃ fs' self', correct_query_tweets fs self = Ok (fs', self') ∧
    read_back fs' (id_ self +:+ "_fix") = Ok (omap (corrected self) rs) ∧
    read_back fs' (id_ self) = Ok rs ∧
    user_ids self' = user_ids self ∧ query_ids self' = query_ids self ∧
    (∀ r', r' ∈ omap (corrected self) rs →
       ∃ r uid label v, r ∈ rs ∧ r !! "user_id" = Some uid ∧
         user_ids self !! uid = Some label ∧
         r' = <["label" := v]> r ∧ truthy v = true ∧
         (v = label ∨ v = flipped label)).
Proof.
  intros Hfs Hempty Hfix Hrs.
  destruct (correct_query_tweets_result fs self rs Hfs Hfix Hrs)
    as (self' & Hr & Hu & Hq).
  eexists _, self'. split; [exact Hr |]. rewrite Hempty.
  split; [apply read_back_text; by rewrite lookup_insert_eq |].
  split.
  { apply read_back_text. rewrite lookup_insert_ne; [done |].
    intros E. by apply (db_path_fix_ne (id_ self)). }
  split; [done |]. split; [done |].
  intros r' Hin. apply list_elem_of_omap in Hin as (r & Hin & Hc).
  destruct (corrected_inv self r r' Hc) as (uid & label & v & H).
  by exists r, uid, label, v.
Qed.

Lemma X14_witness :
  let self := collection "twitter_gender" {["i'm a girl" := VStr "f"]}
                fil flp_any flp_pfx {[VInt 1 := VStr "f"]}
                {[VInt 10 := VStr "i'm a girl"]} "messages" in
  let rs := [hit 1 10 "I guess I'm a girl now" "f" "i'm a girl"] in
  ∃ fs' self',
    correct_query_tweets (J := py_json)
      {[db_path "twitter_gender" := text_of rs]} self = Ok (fs', self') ∧
    read_back (J := py_json) fs' (id_ self +:+ "_fix") =
    Ok (omap (corrected self) rs).
Proof.
  intros self rs.
  destruct (X14_corrected_store_reads_back (J := py_json)
              {[db_path "twitter_gender" := text_of rs]} self rs)
    as (fs' & self' & Hr & Hb & _).
  - apply lookup_singleton_eq.
  - reflexivity.
  - reflexivity.
  - repeat constructor.
    exists (VInt 1), (VInt 10), "I guess I'm a girl now", (Some (VStr "m")).
    vm_compute. repeat split.
  - exists fs', self'. split; [exact Hr | exact Hb].
Defined.

Lemma reconstruct_ids_consumed `{J : Json}
    (fs : gmap string string) (db_id c : string) :
  fs !! db_path (db_id +:+ "_fix") = Some c →
  c ≠ EmptyString →
  reconstruct_ids fs db_id = Ok (fs, (∅, ∅)).
Proof.
  intros Hfix Hc. unfold reconstruct_ids.
  rewrite DB_init_read, Hfix. simpl.
  pose proof (universal_newlines_nonempty c Hc) as Hne.
  destruct (universal_newlines c) as [|x u] eqn:E; [done |].
  by simpl.
Qed.

Lemma text_of_nonempty `{J : Json} (rs : list (gmap string value)) :
  rs ≠ [] → text_of rs ≠ EmptyString.
Proof.
  destruct rs as [|r rs]; [done |]. intros _. cbn [text_of].
  destruct (dumps r); discriminate.
Qed.

(** X15: [reconstruct_ids] after a correction pass never gives the
    corrected labels.  When the pass kept at least one hit, the corrected
    store is not empty and both maps come back empty; when it kept none,
    the maps are those of the raw hits, with their uncorrected labels. *)
Theorem X15_reconstruct_ids_after_correction `{J : Json} `{!JsonLaws J}
    (fs : gmap string string) (self : DistantCollection)
    (rs : list (gmap string value)) :
  fs !! db_path (id_ self) = Some (text_of rs) →
  default EmptyString (fs !! db_path (id_ self +:+ "_fix")) = EmptyString →
  hit_fix self =
    mkDB Fa (mkfile (db_path (id_ self +:+ "_fix")) Fa EmptyString
               EmptyString) →
  Forall (passes self) rs →
  Forall is_hit rs →
  ∃ fs' self', correct_query_tweets fs self = Ok (fs', self') ∧
    (omap (corrected self) rs ≠ [] →
     reconstruct_ids fs' (id_ self) = Ok (fs', (∅, ∅))) ∧
    (omap (corrected self) rs = [] →
     reconstruct_ids fs' (id_ self) =
     Ok (fs', foldl index_hit (∅, ∅) rs)).
Proof.
  intros Hfs Hempty Hfix Hrs Hhits.
  destruct (correct_query_tweets_result fs self rs Hfs Hfix Hrs)
    as (self' & Hr & _).
  eexists _, self'. split; [exact Hr |]. rewrite Hempty. split.
  - intros Hkept.
    apply (reconstruct_ids_consumed _ _
             (EmptyString +:+ text_of (omap (corrected self) rs))).
    + by rewrite lookup_insert_eq.
    + by apply text_of_nonempty.
  - intros Hnone. rewrite Hnone. cbn [text_of].
    rewrite (reconstruct_ids_fallback _ (id_ self) rs).
    + rewrite (for_records_fold _ index_hit is_hit rs (∅, ∅)
                 (λ r s, reconstruct_line_hit r s) Hhits).
      cbn [mbind result_bind]. by rewrite insert_insert_eq.
    + by rewrite lookup_insert_eq.
    + rewrite lookup_insert_ne; [done |].
      intros E. by apply (db_path_fix_ne (id_ self)).
Qed.

Lemma X15_witness :
  let self := collection "twitter_gender" {["i'm a girl" := VStr "f"]}
                fil flp_any flp_pfx {[VInt 1 := VStr "f"]}
                {[VInt 10 := VStr "i'm a girl"]} "messages" in
  let rs := [hit 1 10 "I guess I'm a girl now" "f" "i'm a girl"] in
  ∃ fs' self',
    correct_query_tweets (J := py_json)
      {[db_path "twitter_gender" := text_of rs]} self = Ok (fs', self') ∧
    reconstruct_ids (J := py_json) fs' (id_ self) = Ok (fs', (∅, ∅)).
Proof.
  intros self rs.
  destruct (X15_reconstruct_ids_after_correction (J := py_json)
              {[db_path "twitter_gender" := text_of rs]} self rs)
    as (fs' & self' & Hr & Hkept & _).
  - apply lookup_singleton_eq.
  - reflexivity.
  - reflexivity.
  - repeat constructor.
    exists (VInt 1), (VInt 10), "I guess I'm a girl now", (Some (VStr "m")).
    vm_compute. repeat split.
  - repeat constructor; by eexists.
  - exists fs', self'. split; [exact Hr |]. apply Hkept.
    vm_compute. discriminate.
Defined.

(** X16: hits whose lower-cased text holds a filter substring never reach
    the corrected store and never raise, even when their user or tweet id
    is in neither map: after the pass the corrected store holds what it
    held. *)
Theorem X16_vetoed_hits_leave_corrected_store_unchanged
    `{J : Json} `{!JsonLaws J}
    (fs : gmap string string) (self : DistantCollection)
    (rs : list (gmap string value)) :
  fs !! db_path (id_ self) = Some (text_of rs) →
  hit_fix self =
    mkDB Fa (mkfile (db_path (id_ self +:+ "_fix")) Fa EmptyString
               EmptyString) →
  Forall (λ r, ∃ uid tid s,
            r !! "user_id" = Some uid ∧ r !! "tweet_id" = Some tid ∧
            r !! "tweet_text" = Some (VStr s) ∧
            vetoed self (lower s) = true) rs →
  ∃ fs' self', correct_query_tweets fs self = Ok (fs', self') ∧
    fs' !! db_path (id_ self +:+ "_fix") =
    Some (default EmptyString (fs !! db_path (id_ self +:+ "_fix"))) ∧
    (∀ p, p ≠ db_path (id_ self +:+ "_fix") → fs' !! p = fs !! p).
Proof.
  intros Hfs Hfix Hrs.
  assert (Hpass : Forall (passes self) rs).
  { eapply Forall_impl; [exact Hrs |].
    intros r (uid & tid & s & Hu & Ht & Hs & Hv).
    exists uid, tid, s, None. repeat (split; [done |]).
    by apply flip_label_vetoed. }
  assert (Hnone : omap (corrected self) rs = []).
  { clear Hfs Hpass. induction Hrs as [|r rs Hr _ IH]; [done |].
    change (omap (corrected self) (r :: rs))
      with (match corrected self r with
            | Some y => y :: omap (corrected self) rs
            | None => omap (corrected self) rs
            end).
    destruct Hr as (uid & tid & s & Hu & Ht & Hs & Hv).
    unfold corrected at 1. rewrite Hu, Ht, Hs.
    by rewrite (flip_label_vetoed self uid tid _ Hv). }
  destruct (correct_query_tweets_result fs self rs Hfs Hfix Hpass)
    as (self' & Hr & _).
  eexists _, self'. split; [exact Hr |]. rewrite Hnone. cbn [text_of].
  rewrite append_nil_r. split.
  - by rewrite lookup_insert_eq.
  - intros p Hp. by rewrite lookup_insert_ne.
Qed.

Lemma X16_witness :
  let self := collection "twitter_gender" {["i'm a girl" := VStr "f"]}
                fil flp_any flp_pfx ∅ ∅ "messages" in
  let rs := [hit 1 10 "RT @x: I'm a girl now" "f" "i'm a girl"] in
  ∃ fs' self',
    correct_query_tweets (J := py_json)
      {[db_path "twitter_gender" := text_of rs]} self = Ok (fs', self') ∧
    fs' !! db_path (id_ self +:+ "_fix") = Some EmptyString.
Proof.
  intros self rs.
  destruct (X16_vetoed_hits_leave_corrected_store_unchanged (J := py_json)
              {[db_path "twitter_gender" := text_of rs]} self rs)
    as (fs' & self' & Hr & Hf & _).
  - apply lookup_singleton_eq.
  - reflexivity.
  - repeat constructor.
    exists (VInt 1), (VInt 10), "RT @x: I'm a girl now".
    vm_compute. repeat split.
  - exists fs', self'. split; [exact Hr | exact Hf].
Defined.

(** ** More on [batches_to_sets] *)











(** ** [chunk] *)

Lemma py_slice_nonneg {A : Type} (l : list A) (i s : Z) :
  (0 ≤ i)%Z → (0 ≤ s)%Z →
  py_slice l i (i + s) = take (Z.to_nat s) (drop (Z.to_nat i) l).
Proof.
  intros Hi Hs. unfold py_slice, slice_index.
  destruct (Z.ltb_spec i 0); [lia |].
  destruct (Z.ltb_spec (i + s) 0); [lia |].
  destruct (Z.le_gt_cases i (Z.of_nat (length l))) as [Hle | Hgt].
  - rewrite (Z.min_l i) by lia.
    destruct (Z.le_gt_cases (i + s) (Z.of_nat (length l))) as [Hle2 | Hgt2].
    + rewrite Z.min_l by lia. f_equal. lia.
    + rewrite Z.min_r by lia. rewrite Nat2Z.id.
      rewrite !take_ge; [done | |]; rewrite length_drop; lia.
  - rewrite !Z.min_r by lia. rewrite Nat2Z.id, Nat.sub_diag.
    rewrite (drop_ge l (Z.to_nat i)) by lia. by rewrite take_nil.
Qed.

Lemma concat_takes {A : Type} (l : list A) (s m : nat) :
  concat ((λ k, take s (drop (k * s) l)) <$> seq 0 m) = take (m * s) l.
Proof.
  induction m as [|m IH]; [done |].
  rewrite seq_S, fmap_app, concat_app, IH. cbn [fmap list_fmap concat].
  rewrite app_nil_r, take_take_drop. f_equal. lia.
Qed.

(** The chunks for a positive [n] that is at most the length. *)
Lemma chunk_positive {A : Type} (l : list A) (n : nat) :
  0 < n ≤ length l →
  chunk l (Z.of_nat n) =
  inr ((λ k, take (length l / n) (drop (k * (length l / n)) l)) <$>
       seq 0 ((length l + length l / n - 1) / (length l / n))).
Proof.
  intros Hn. unfold chunk.
  destruct (Z.eqb_spec (Z.of_nat n) 0); [lia |].
  assert (Hs : 0 < length l / n) by (apply Nat.div_str_pos; lia).
  rewrite Z.quot_div_nonneg by lia. rewrite <- Nat2Z.inj_div.
  destruct (Z.eqb_spec (Z.of_nat (length l / n)) 0); [lia |].
  f_equal. unfold py_range.
  destruct (Z.ltb_spec 0 (Z.of_nat (length l / n))); [| lia].
  rewrite <- list_fmap_compose.
  replace (Z.to_nat ((Z.of_nat (length l) - 0 + Z.of_nat (length l / n) - 1)
                     / Z.of_nat (length l / n)))
    with ((length l + length l / n - 1) / (length l / n)).
  2:{ replace (Z.of_nat (length l) - 0 + Z.of_nat (length l / n) - 1)%Z
        with (Z.of_nat (length l + length l / n - 1)) by lia.
      by rewrite <- Nat2Z.inj_div, Nat2Z.id. }
  apply list_fmap_ext. intros _ k _. cbn [compose].
  rewrite py_slice_nonneg by lia. rewrite Nat2Z.id. do 2 f_equal. lia.
Qed.

(** X19: for a positive [n] that is at most the length of the list,
    [chunk] cuts the list into consecutive pieces: put together in order
    they are the list, none is empty and none is longer than
    [len(l) // n].  There are at least [n] of them, not always [n]: their
    number is [len(l)] divided by that size, rounded up. *)
Theorem X19_chunk_cuts_the_list_into_consecutive_pieces
    {A : Type} (l : list A) (n : nat) :
  0 < n ≤ length l →
  ∃ cs, chunk l (Z.of_nat n) = inr cs ∧
    concat cs = l ∧
    Forall (λ c, 0 < length c ≤ length l / n) cs ∧
    (n ≤ length cs)%nat ∧
    length cs = (length l + length l / n - 1) / (length l / n).
Proof.
  intros Hn. rewrite (chunk_positive l n Hn). eexists. split; [done |].
  assert (Hs : 0 < length l / n) by (apply Nat.div_str_pos; lia).
  set (s := length l / n) in *.
  set (m := (length l + s - 1) / s).
  pose proof (Nat.div_mod_eq (length l + s - 1) s) as Hdm.
  pose proof (Nat.mod_upper_bound (length l + s - 1) s ltac:(lia)) as Hmod.
  fold m in Hdm.
  pose proof (Nat.Div0.mul_div_le (length l) n) as Hle. fold s in Hle.
  split; [| split; [| split]].
  - rewrite concat_takes. apply take_ge. nia.
  - apply Forall_fmap, Forall_forall. intros k Hk%elem_of_seq. cbn [compose].
    rewrite length_take, length_drop. nia.
  - rewrite length_fmap, length_seq. nia.
  - by rewrite length_fmap, length_seq.
Qed.

Lemma X19_witness :
  ∃ cs, chunk [1; 2; 3; 4; 5; 6; 7; 8; 9; 10] (Z.of_nat 3) = inr cs ∧
    concat cs = [1; 2; 3; 4; 5; 6; 7; 8; 9; 10] ∧
    Forall (λ c, 0 < length c ≤
                 length [1; 2; 3; 4; 5; 6; 7; 8; 9; 10] / 3) cs ∧
    (3 ≤ length cs)%nat ∧
    length cs =
    (length [1; 2; 3; 4; 5; 6; 7; 8; 9; 10] +
     length [1; 2; 3; 4; 5; 6; 7; 8; 9; 10] / 3 - 1) /
    (length [1; 2; 3; 4; 5; 6; 7; 8; 9; 10] / 3).
Proof.
  apply (X19_chunk_cuts_the_list_into_consecutive_pieces
           [1; 2; 3; 4; 5; 6; 7; 8; 9; 10] 3).
  simpl. lia.
Defined.

(** X20: the other arguments.  [n = 0] raises [ZeroDivisionError]; an [n]
    whose size is above the length of the list, so any [n] for the empty
    list, raises [ValueError], the step of the range being zero; a
    negative [n] whose size is at most the length yields no chunk at
    all. *)
Theorem X20_chunk_errors_and_negative_count
    {A : Type} (l : list A) (n : Z) :
  (n = 0%Z → chunk l n = inl ZeroDivisionError) ∧
  (n ≠ 0%Z → (Z.of_nat (length l) < Z.abs n)%Z →
   chunk l n = inl ValueError) ∧
  ((n < 0)%Z → (- n ≤ Z.of_nat (length l))%Z → chunk l n = inr []).
Proof.
  split; [by intros -> |]. split.
  - intros Hn Hlt. unfold chunk.
    destruct (Z.eqb_spec n 0); [done |].
    assert (Hq : Z.quot (Z.of_nat (length l)) n = 0%Z).
    { destruct (Z.abs_spec n) as [[Hpos Habs] | [Hneg Habs]].
      - apply Z.quot_small. lia.
      - replace n with (- - n)%Z by lia.
        rewrite Z.quot_opp_r by lia. rewrite Z.quot_small; lia. }
    by rewrite Hq.
  - intros Hn Hle. unfold chunk.
    destruct (Z.eqb_spec n 0); [lia |].
    set (q := Z.quot (Z.of_nat (length l)) (- n)).
    assert (Hq : Z.quot (Z.of_nat (length l)) n = (- q)%Z).
    { unfold q. replace n with (- - n)%Z at 1 by lia.
      by rewrite Z.quot_opp_r by lia. }
    assert (Hq1 : (1 ≤ q ≤ Z.of_nat (length l))%Z).
    { unfold q. rewrite Z.quot_div_nonneg by lia. split.
      - apply Z.div_le_lower_bound; lia.
      - apply Z.div_le_upper_bound; nia. }
    rewrite Hq. destruct (Z.eqb_spec (- q) 0); [lia |].
    f_equal. unfold py_range.
    destruct (Z.ltb_spec 0 (- q)); [lia |].
    replace (Z.to_nat ((0 - Z.of_nat (length l) - - q - 1) / - - q)) with 0%nat;
      [done |].
    assert ((0 - Z.of_nat (length l) - - q - 1) / - - q < 0)%Z; [| lia].
    apply Z.div_lt_upper_bound; lia.
Qed.
